(** * CKBoxImageEditCommand: the CKBox "edit image" command

    A shallow embedding of
    [packages/ckeditor5-ckbox/src/ckboximageedit/ckboximageeditcommand.ts].

    The command is event based.  Its listeners are modelled as state
    transformers on an explicit [State] that holds the command's own fields
    together with the parts of the platform the listeners touch (the model
    selection, the DOM mount point, the dialog mount calls, the HTTP requests
    sent to the status endpoint).  The asynchronous wait for the asset is a
    poll task that is suspended either on its HTTP request or on the delay of
    the retry loop; the environment resumes it with an [Input]. *)

From stdpp Require Import base strings list gmap.

Open Scope string_scope.
Open Scope list_scope.
Open Scope nat_scope.

(** ** Assets *)

(** [CKBoxRawAssetMetadataDefinition]: the source reads
    [response.metadata.metadataProcessingStatus]; a status that is absent from
    the JSON body is [None].
    Modelled from the spec: the other members (alt text, width, height,
    placeholder) are the fields the image attributes are built from; their
    declaration lives in [ckboxconfig], which is not part of this slice. *)
Record CKBoxRawAssetMetadataDefinition := {
  metadataProcessingStatus : option string;
  altText : option string;
  width : option N;
  height : option N;
  placeholder : option string
}.

(** [CKBoxRawAssetDataDefinition]: the source reads [data.id] and
    [response.metadata].
    Modelled from the spec: the fallback URL and the responsive sources are the
    remaining fields the image attributes are built from. *)
Record CKBoxRawAssetDataDefinition := {
  id : string;
  metadata : CKBoxRawAssetMetadataDefinition;
  url : string;
  sources : list string
}.

(** [CKBoxRawAssetDefinition]: the source reads [asset.data]. *)
Record CKBoxRawAssetDefinition := {
  data : CKBoxRawAssetDataDefinition
}.

(** The six members the [processed] listener takes out of the result of
    [prepareImageAssetAttributes]. *)
Record CKBoxAssetImageAttributesDefinition := {
  imageFallbackUrl : string;
  imageSources : list string;
  imageTextAlternative : string;
  imageWidth : option N;
  imageHeight : option N;
  imagePlaceholder : option string
}.

(** The [source] member of the argument of [InsertImageCommand.execute]. *)
Record ImageSource := {
  src : string;
  src_sources : list string;
  alt : string;
  src_width : option N;
  src_height : option N;
  src_placeholder : option string
}.

(** ** Document model *)

(** A model element: its name and its attribute map. *)
Record ModelElement := {
  name : string;
  attributes : gmap string string
}.

Definition is_element (e : ModelElement) (n : string) : bool :=
  String.eqb (name e) n.

Definition hasAttribute (e : ModelElement) (key : string) : bool :=
  bool_decide (is_Some (attributes e !! key)).

Definition getAttribute (e : ModelElement) (key : string) : option string :=
  attributes e !! key.

Definition setAttribute (key value : string) (e : ModelElement)
    : ModelElement :=
  {| name := name e; attributes := <[key := value]> (attributes e) |}.

(** ** JavaScript values *)

(** Truthiness of an optional string: [undefined] and the empty string are
    falsy, every other string is truthy. *)
Definition truthy (v : option string) : bool :=
  match v with
  | None => false
  | Some s => negb (String.eqb s "")
  end.

(** The settlement of a promise. *)
Inductive Outcome (A : Type) : Type :=
| Resolved (a : A)
| Rejected (err : string).
Arguments Resolved {A} a.
Arguments Rejected {A} err.

(** What [sendHttpRequest] settles with: the parsed JSON body, or a failure of
    the transport. *)
Inductive HttpResult : Type :=
| HttpOk (response : CKBoxRawAssetDataDefinition)
| HttpFailed (err : string).

(** [new URL( input, base )], kept unresolved. *)
Record URL := {
  url_input : string;
  url_base : string
}.

(** The argument of [sendHttpRequest]; [signal] is the identity of the
    [AbortController] the signal belongs to. *)
Record HttpRequest := {
  req_url : URL;
  signal : nat;
  authorization : string
}.

(** The call [window.CKBox.mountImageEditor( wrapper, options )]; the two
    callbacks of the options are the inputs [OnClose] and [OnSave] below. *)
Record MountCall := {
  mount_wrapper : nat;
  assetId : option string;
  allowOverwrite : bool;
  mount_tokenUrl : string
}.

(** ** Events and poll tasks *)

Inductive CKBoxImageEditorEvent : Type :=
| EvOpen
| EvClose
| EvSave (asset : CKBoxRawAssetDefinition)
| EvProcessed (asset : CKBoxRawAssetDefinition).

(** Where the promise of [_waitForAssetProcessed] is suspended: on the HTTP
    request of attempt [attempt], on the delay that precedes attempt
    [attempt], or not at all once it is settled. *)
Inductive PollState : Type :=
| AwaitingResponse (attempt : nat)
| AwaitingDelay (attempt : nat)
| Settled (result : Outcome (option CKBoxRawAssetDataDefinition)).

Record PollTask := {
  poll_asset : CKBoxRawAssetDefinition;
  poll_state : PollState
}.

(** What the retry loop does with the settlement of an attempt: it returns
    the result, throws, or makes attempt [attempt] after a delay. *)
Inductive RetryStep (A : Type) : Type :=
| RetryReturn (a : A)
| RetryThrow (err : string)
| RetryAgain (attempt : nat).
Arguments RetryReturn {A} a.
Arguments RetryThrow {A} err.
Arguments RetryAgain {A} attempt.

(** ** State *)

Record State := {
  (* fields of the command *)
  value : bool;
  isEnabled : bool;
  controller : nat;
  _wrapper : option nat;
  _ckboxImageId : option string;
  (* the editor and the page *)
  selection : option ModelElement;
  insertImageCalls : list ImageSource;
  focusCalls : nat;
  body : list nat;
  nextElement : nat;
  mounted : list MountCall;
  nextAbortController : nat;
  requests : list HttpRequest;
  console : list string;
  (* the event bus and the pending promises *)
  fired : list CKBoxImageEditorEvent;
  polls : list PollTask
}.

Definition set_value (v : bool) (s : State) : State :=
  {| value := v; isEnabled := isEnabled s; controller := controller s;
     _wrapper := _wrapper s; _ckboxImageId := _ckboxImageId s;
     selection := selection s; insertImageCalls := insertImageCalls s;
     focusCalls := focusCalls s; body := body s; nextElement := nextElement s;
     mounted := mounted s; nextAbortController := nextAbortController s;
     requests := requests s; console := console s; fired := fired s;
     polls := polls s |}.

Definition set_enabled (b : bool) (i : option string) (s : State) : State :=
  {| value := value s; isEnabled := b; controller := controller s;
     _wrapper := _wrapper s; _ckboxImageId := i;
     selection := selection s; insertImageCalls := insertImageCalls s;
     focusCalls := focusCalls s; body := body s; nextElement := nextElement s;
     mounted := mounted s; nextAbortController := nextAbortController s;
     requests := requests s; console := console s; fired := fired s;
     polls := polls s |}.

Definition set_model (sel : option ModelElement) (calls : list ImageSource)
    (s : State) : State :=
  {| value := value s; isEnabled := isEnabled s; controller := controller s;
     _wrapper := _wrapper s; _ckboxImageId := _ckboxImageId s;
     selection := sel; insertImageCalls := calls;
     focusCalls := focusCalls s; body := body s; nextElement := nextElement s;
     mounted := mounted s; nextAbortController := nextAbortController s;
     requests := requests s; console := console s; fired := fired s;
     polls := polls s |}.

Definition set_dom (w : option nat) (b : list nat) (n : nat)
    (m : list MountCall) (f : nat) (s : State) : State :=
  {| value := value s; isEnabled := isEnabled s; controller := controller s;
     _wrapper := w; _ckboxImageId := _ckboxImageId s;
     selection := selection s; insertImageCalls := insertImageCalls s;
     focusCalls := f; body := b; nextElement := n;
     mounted := m; nextAbortController := nextAbortController s;
     requests := requests s; console := console s; fired := fired s;
     polls := polls s |}.

Definition set_http (n : nat) (r : list HttpRequest) (s : State) : State :=
  {| value := value s; isEnabled := isEnabled s; controller := controller s;
     _wrapper := _wrapper s; _ckboxImageId := _ckboxImageId s;
     selection := selection s; insertImageCalls := insertImageCalls s;
     focusCalls := focusCalls s; body := body s; nextElement := nextElement s;
     mounted := mounted s; nextAbortController := n;
     requests := r; console := console s; fired := fired s;
     polls := polls s |}.

Definition set_fired (l : list CKBoxImageEditorEvent) (s : State) : State :=
  {| value := value s; isEnabled := isEnabled s; controller := controller s;
     _wrapper := _wrapper s; _ckboxImageId := _ckboxImageId s;
     selection := selection s; insertImageCalls := insertImageCalls s;
     focusCalls := focusCalls s; body := body s; nextElement := nextElement s;
     mounted := mounted s; nextAbortController := nextAbortController s;
     requests := requests s; console := console s; fired := l;
     polls := polls s |}.

Definition set_polls (l : list PollTask) (s : State) : State :=
  {| value := value s; isEnabled := isEnabled s; controller := controller s;
     _wrapper := _wrapper s; _ckboxImageId := _ckboxImageId s;
     selection := selection s; insertImageCalls := insertImageCalls s;
     focusCalls := focusCalls s; body := body s; nextElement := nextElement s;
     mounted := mounted s; nextAbortController := nextAbortController s;
     requests := requests s; console := console s; fired := fired s;
     polls := l |}.

(** ** The command *)

(** [_getValue]: is the dialog already opened. *)
Definition _getValue (s : State) : bool :=
  match _wrapper s with
  | Some _ => true
  | None => false
  end.

(** [refresh]. *)
Definition refresh (s : State) : State :=
  let s := set_value (_getValue s) s in
  let selectedElement := selection s in
  let isImageElement :=
    match selectedElement with
    | Some e => is_element e "imageInline" || is_element e "imageBlock"
    | None => false
    end in
  match selectedElement with
  | Some e =>
      if isImageElement && hasAttribute e "ckboxImageId"
      then set_enabled true (getAttribute e "ckboxImageId") s
      else set_enabled false None s
  | None => set_enabled false None s
  end.

(** ** The collaborators of the command

    What the listeners reach outside this file: the [ckbox] configuration,
    the token of [CKBoxEditing], the helper [prepareImageAssetAttributes] of
    [ckboxcommand], the [insertImage] command of the image feature and the
    attempt bound of the [retry] utility. *)
Class Environment := {
  tokenUrl : string;
  serviceOrigin : string;
  token : string;
  prepareImageAssetAttributes :
    CKBoxRawAssetDefinition -> CKBoxAssetImageAttributesDefinition;
  (* the element that is selected once [InsertImageCommand.execute] has run,
     from the source it was given and the element selected before *)
  insertImage : ImageSource -> option ModelElement -> option ModelElement;
  maxAttempts : nat
}.

Section Command.
Context {env : Environment}.

(** The state right after the constructor: [value] is false, the instance
    level [AbortController] is the first one that is created, no wrapper and
    no image id are stored; the command was not refreshed yet and is not
    enabled. *)
Definition new_command (sel : option ModelElement) : State :=
  {| value := false; isEnabled := false; controller := 0;
     _wrapper := None; _ckboxImageId := None;
     selection := sel; insertImageCalls := []; focusCalls := 0;
     body := []; nextElement := 0; mounted := [];
     nextAbortController := 1; requests := []; console := [];
     fired := []; polls := [] |}.

(** The listener of [ckboxImageEditor:open]. *)
Definition on_open (s : State) : State :=
  if negb (isEnabled s) || _getValue s then s
  else
    let s := set_value true s in
    let wrapper := nextElement s in
    set_dom (Some wrapper) (body s ++ [wrapper]) (S wrapper)
      (mounted s ++ [ {| mount_wrapper := wrapper;
                         assetId := _ckboxImageId s;
                         allowOverwrite := false;
                         mount_tokenUrl := tokenUrl |} ])
      (focusCalls s) s.

(** The listener of [ckboxImageEditor:close]. *)
Definition on_close (s : State) : State :=
  match _wrapper s with
  | None => s
  | Some wrapper =>
      set_dom None (filter (fun e => e ≠ wrapper) (body s)) (nextElement s)
        (mounted s) (S (focusCalls s)) s
  end.

(** [_getAssetStatusFromServer], up to its [await]: the URL is built, a new
    [AbortController] is created and the request is sent with its signal. *)
Definition _getAssetStatusFromServer_send (data : CKBoxRawAssetDataDefinition)
    (s : State) : State :=
  let url := {| url_input := "assets/" +:+ id data;
                url_base := serviceOrigin |} in
  let abortController := nextAbortController s in
  set_http (S abortController)
    (requests s ++ [ {| req_url := url;
                        signal := abortController;
                        authorization := token |} ]) s.

(** [_getAssetStatusFromServer], from its [await] on. *)
Definition _getAssetStatusFromServer_resume (answer : HttpResult)
    : Outcome CKBoxRawAssetDataDefinition :=
  match answer with
  | HttpFailed err => Rejected err
  | HttpOk response =>
      let status := metadataProcessingStatus (metadata response) in
      if negb (truthy status) || bool_decide (status = Some "queued")
      then Rejected "Image has not been processed yet."
      else Resolved response
  end.

(** Modelled from the spec: the [retry] utility of [ckeditor5/src/utils] is
    not part of this slice.  It makes a bounded number of attempts with a
    delay between them; a successful attempt is its result, and once the
    bound is exhausted the wait fails with the failure of the last attempt. *)
Definition retry {A : Type} (attempt : nat) (settled : Outcome A)
    : RetryStep A :=
  match settled with
  | Resolved a => RetryReturn a
  | Rejected err =>
      if maxAttempts <=? S attempt then RetryThrow err
      else RetryAgain (S attempt)
  end.

(** The [try]/[catch] of [_waitForAssetProcessed]: the result of [retry] is
    returned, a failure is dropped and the promise resolves with [undefined]. *)
Definition _waitForAssetProcessed_catch
    (r : Outcome CKBoxRawAssetDataDefinition)
    : Outcome (option CKBoxRawAssetDataDefinition) :=
  match r with
  | Resolved response => Resolved (Some response)
  | Rejected _ => Resolved None
  end.

(** The listener of [ckboxImageEditor:save]: [_waitForAssetProcessed] starts,
    the first request is sent and the promise is left pending. *)
Definition on_save (asset : CKBoxRawAssetDefinition) (s : State) : State :=
  let s := _getAssetStatusFromServer_send (data asset) s in
  set_polls (polls s ++ [ {| poll_asset := asset;
                             poll_state := AwaitingResponse 0 |} ]) s.

(** The [source] the [processed] listener gives to the [insertImage] command
    for an asset. *)
Definition image_source (asset : CKBoxRawAssetDefinition) : ImageSource :=
  let attrs := prepareImageAssetAttributes asset in
  {| src := imageFallbackUrl attrs;
     src_sources := imageSources attrs;
     alt := imageTextAlternative attrs;
     src_width := imageWidth attrs;
     src_height := imageHeight attrs;
     src_placeholder :=
       if truthy (imagePlaceholder attrs) then imagePlaceholder attrs
       else None |}.

(** The listener of [ckboxImageEditor:processed]. *)
Definition on_processed (asset : CKBoxRawAssetDefinition) (s : State) : State :=
  let source := image_source asset in
  let selectedImageElement := insertImage source (selection s) in
  set_model
    (setAttribute "ckboxImageId" (id (data asset)) <$> selectedImageElement)
    (insertImageCalls s ++ [source]) s.

(** [fire]: the listener of the event runs first, the low priority listener
    of the [ckboxImageEditor] namespace, which refreshes the command, last. *)
Definition listener (ev : CKBoxImageEditorEvent) (s : State) : State :=
  match ev with
  | EvOpen => on_open s
  | EvClose => on_close s
  | EvSave asset => on_save asset s
  | EvProcessed asset => on_processed asset s
  end.

Definition fire (ev : CKBoxImageEditorEvent) (s : State) : State :=
  refresh (listener ev (set_fired (fired s ++ [ev]) s)).

(** [execute]. *)
Definition execute (s : State) : State := fire EvOpen s.

(** The promise of [_waitForAssetProcessed] settles; when it resolves, the
    callback given to [then] fires [ckboxImageEditor:processed] with the asset
    of the save event. *)
Definition settle (i : nat) (asset : CKBoxRawAssetDefinition)
    (r : Outcome (option CKBoxRawAssetDataDefinition)) (s : State) : State :=
  let s := set_polls (<[i := {| poll_asset := asset;
                                poll_state := Settled r |}]> (polls s)) s in
  match r with
  | Resolved _ => fire (EvProcessed asset) s
  | Rejected _ => s
  end.

(** The request of poll [i] settles with [answer]. *)
Definition http_done (i : nat) (answer : HttpResult) (s : State) : State :=
  match polls s !! i with
  | Some {| poll_asset := asset; poll_state := AwaitingResponse attempt |} =>
      match retry attempt (_getAssetStatusFromServer_resume answer) with
      | RetryReturn response =>
          settle i asset (_waitForAssetProcessed_catch (Resolved response)) s
      | RetryThrow err =>
          settle i asset (_waitForAssetProcessed_catch (Rejected err)) s
      | RetryAgain next =>
          set_polls (<[i := {| poll_asset := asset;
                               poll_state := AwaitingDelay next |}]>
                       (polls s)) s
      end
  | _ => s
  end.

(** The delay of poll [i] is over: the next attempt is made. *)
Definition delay_elapsed (i : nat) (s : State) : State :=
  match polls s !! i with
  | Some {| poll_asset := asset; poll_state := AwaitingDelay attempt |} =>
      let s := _getAssetStatusFromServer_send (data asset) s in
      set_polls (<[i := {| poll_asset := asset;
                           poll_state := AwaitingResponse attempt |}]>
                   (polls s)) s
  | _ => s
  end.

(** What can happen to the command from outside: [execute] is called, the
    dialog calls [onClose] or [onSave], the editor calls [refresh], the
    selection of the model changes, the request of a poll is answered, the
    delay of a poll elapses. *)
Inductive Input : Type :=
| Execute
| OnClose
| OnSave (asset : CKBoxRawAssetDefinition)
| Refresh
| SelectionChange (sel : option ModelElement)
| HttpDone (i : nat) (answer : HttpResult)
| DelayElapsed (i : nat).

Definition step (inp : Input) (s : State) : State :=
  match inp with
  | Execute => execute s
  | OnClose => fire EvClose s
  | OnSave asset => fire (EvSave asset) s
  | Refresh => refresh s
  | SelectionChange sel => set_model sel (insertImageCalls s) s
  | HttpDone i answer => http_done i answer s
  | DelayElapsed i => delay_elapsed i s
  end.

Definition run (inputs : list Input) (s : State) : State :=
  fold_left (fun s inp => step inp s) inputs s.

(** Poll [i] against an endpoint that gives the answers of [answers], one per
    attempt; the delay after a failed attempt elapses before the next one. *)
Fixpoint run_poll (i : nat) (answers : list HttpResult) (s : State) : State :=
  match answers with
  | [] => s
  | answer :: rest => run_poll i rest (delay_elapsed i (http_done i answer s))
  end.

End Command.

(** ** What the claims speak about *)

(** The selection is an [imageInline] or [imageBlock] element that carries
    the attribute [ckboxImageId] with value [v]. *)
Definition selects_ckbox_image (sel : option ModelElement) (v : string)
    : Prop :=
  ∃ e, sel = Some e
       ∧ (name e = "imageInline" ∨ name e = "imageBlock")
       ∧ attributes e !! "ckboxImageId" = Some v.

(** The status of a response. *)
Definition status_of (response : CKBoxRawAssetDataDefinition) : option string :=
  metadataProcessingStatus (metadata response).

(** An answer of the status endpoint that [_getAssetStatusFromServer] throws
    on. *)
Definition not_ready (answer : HttpResult) : Prop :=
  ∃ err, _getAssetStatusFromServer_resume answer = Rejected err.

(** The states in which the listeners of an event have all run: the cached
    fields agree with the wrapper and with the selection. *)
Definition refreshed (s : State) : Prop := refresh s = s.

(** The page holds the wrapper of the command and no other one. *)
Definition single_mount_point (s : State) : Prop :=
  body s = match _wrapper s with Some w => [w] | None => [] end.

(** What holds whenever the listeners of an event have all run: the page
    holds the wrapper of the command and nothing else, and [value] says
    whether there is a wrapper. *)
Definition session_ok (s : State) : Prop :=
  single_mount_point s ∧ value s = _getValue s.

(** The number of attempts [retry] makes at most: the first attempt is made
    before the bound is looked at. *)
Definition attempt_bound {env : Environment} : nat := Nat.max 1 maxAttempts.

(** The requests of [k] consecutive attempts for [data], the first of them
    with the signal of controller [c]. *)
Definition poll_requests {env : Environment}
    (data : CKBoxRawAssetDataDefinition) (c k : nat) : list HttpRequest :=
  (λ c, {| req_url := {| url_input := "assets/" +:+ id data;
                         url_base := serviceOrigin |};
           signal := c;
           authorization := token |}) <$> seq c k.

(** The state in which poll [i] has made [k] more attempts than in [s] and
    waits for the answer to the last of them. *)
Definition poll_advanced {env : Environment} (i : nat)
    (asset : CKBoxRawAssetDefinition) (attempt k : nat) (s : State) : State :=
  set_polls (<[i := {| poll_asset := asset;
                       poll_state := AwaitingResponse (attempt + k) |}]>
               (polls s))
    (set_http (nextAbortController s + k)
       (requests s ++ poll_requests (data asset) (nextAbortController s) k) s).

(** The HTTP requests carry the signals of the controllers that were created
    after the one of the constructor, each of them once. *)
Definition signals (s : State) : list nat := signal <$> requests s.

Definition controllers_ok (s : State) : Prop :=
  controller s = 0
  ∧ nextAbortController s = S (length (requests s))
  ∧ signals s = seq 1 (length (requests s)).

(** No pending poll is beyond the attempts [retry] makes. *)
Definition within_bound {env : Environment} (task : PollTask) : Prop :=
  match poll_state task with
  | AwaitingResponse attempt | AwaitingDelay attempt => attempt < attempt_bound
  | Settled _ => True
  end.

Definition polls_bounded {env : Environment} (s : State) : Prop :=
  Forall within_bound (polls s).

(** ** Sample data *)

(** Modelled from the spec: [prepareImageAssetAttributes] of [ckboxcommand]
    is not part of this slice; the attributes are the fallback URL, the
    responsive sources, the alt text, the width, the height and the optional
    placeholder of the asset. *)
Definition sample_prepareImageAssetAttributes (asset : CKBoxRawAssetDefinition)
    : CKBoxAssetImageAttributesDefinition :=
  {| imageFallbackUrl := url (data asset);
     imageSources := sources (data asset);
     imageTextAlternative := default "" (altText (metadata (data asset)));
     imageWidth := width (metadata (data asset));
     imageHeight := height (metadata (data asset));
     imagePlaceholder := placeholder (metadata (data asset)) |}.

(** Modelled from the spec: the insert-image operation puts an image with the
    given source at the selection and leaves it selected. *)
Definition sample_insertImage (source : ImageSource)
    (sel : option ModelElement) : option ModelElement :=
  Some {| name := "imageBlock";
          attributes := <["src" := src source]>
                          (<["alt" := alt source]> ∅) |}.

Definition sample_env : Environment :=
  {| tokenUrl := "https://example.com/token";
     serviceOrigin := "https://api.ckbox.io";
     token := "token-1";
     prepareImageAssetAttributes := sample_prepareImageAssetAttributes;
     insertImage := sample_insertImage;
     maxAttempts := 4 |}.

Definition image_A1 : ModelElement :=
  {| name := "imageBlock";
     attributes := <["ckboxImageId" := "A1"]> (<["src" := "a1.png"]> ∅) |}.

Definition paragraph : ModelElement :=
  {| name := "paragraph"; attributes := ∅ |}.

Definition sample_data (status : option string) (w h : N)
    : CKBoxRawAssetDataDefinition :=
  {| id := "A2";
     metadata := {| metadataProcessingStatus := status;
                    altText := Some "a cat";
                    width := Some w;
                    height := Some h;
                    placeholder := None |};
     url := "https://cdn.example.com/A2.webp";
     sources := ["https://cdn.example.com/A2-80.webp 80w"] |}.

(** The asset the dialog saves: it is still queued for processing. *)
Definition saved_asset : CKBoxRawAssetDefinition :=
  {| data := sample_data (Some "queued") 0 0 |}.

Definition queued_response : CKBoxRawAssetDataDefinition :=
  sample_data (Some "queued") 0 0.

Definition success_response : CKBoxRawAssetDataDefinition :=
  sample_data (Some "success") 640 480.

Definition empty_status_response : CKBoxRawAssetDataDefinition :=
  sample_data (Some "") 640 480.

(** The dialog was opened on [image_A1]. *)
Definition opened_on_A1 : State :=
  run (env := sample_env) [Refresh; Execute] (new_command (Some image_A1)).

(** The dialog was opened on [image_A1] and the edited image was saved. *)
Definition saved_on_A1 : State :=
  step (env := sample_env) (OnSave saved_asset) opened_on_A1.

(** The first answer said that the asset is queued; the poll waits for its
    delay. *)
Definition delayed_on_A1 : State :=
  http_done (env := sample_env) 0 (HttpOk queued_response) saved_on_A1.

(** Three answers said that the asset is queued; the poll waits for the
    answer to its fourth and last attempt. *)
Definition last_attempt_on_A1 : State :=
  run_poll (env := sample_env) 0
    [HttpOk queued_response; HttpOk queued_response; HttpOk queued_response]
    saved_on_A1.

(** ** Bookkeeping over whole runs *)

(** What the open and the close listener work on. *)
Definition page (s : State)
    : option nat * list nat * nat * list MountCall * nat :=
  (_wrapper s, body s, nextElement s, mounted s, focusCalls s).

Definition is_settled (task : PollTask) : bool :=
  match poll_state task with
  | Settled _ => true
  | _ => false
  end.

Definition is_save (ev : CKBoxImageEditorEvent) : bool :=
  match ev with
  | EvSave _ => true
  | _ => false
  end.

Definition is_processed (ev : CKBoxImageEditorEvent) : bool :=
  match ev with
  | EvProcessed _ => true
  | _ => false
  end.

(** How many of the promises of [_waitForAssetProcessed] are settled. *)
Definition settled_polls (s : State) : nat :=
  sum_list_with (λ task, if is_settled task then 1 else 0) (polls s).

(** [r] is the request [_getAssetStatusFromServer] sends for [asset]. *)
Definition request_for {env : Environment} (asset : CKBoxRawAssetDefinition)
    (r : HttpRequest) : Prop :=
  req_url r = {| url_input := "assets/" +:+ id (data asset);
                 url_base := serviceOrigin |}
  ∧ authorization r = token.

(** The requests a poll can have sent so far at most: one per attempt it
    began, and as many as [retry] makes attempts once it is settled. *)
Definition poll_cost {env : Environment} (task : PollTask) : nat :=
  match poll_state task with
  | AwaitingResponse attempt => S attempt
  | AwaitingDelay attempt => attempt
  | Settled _ => attempt_bound
  end.

(** Every request was sent for the asset of a poll, every poll sent a
    request, and no more requests were sent than the polls can account
    for. *)
Definition requests_ok {env : Environment} (s : State) : Prop :=
  Forall (λ r, ∃ asset, asset ∈ poll_asset <$> polls s ∧ request_for asset r)
    (requests s)
  ∧ length (polls s) ≤ length (requests s)
  ∧ length (requests s) ≤ sum_list_with poll_cost (polls s).

(** The dialog was mounted once per wrapper, on wrappers that were created
    one after the other; all sessions but the open one were closed with one
    focus call each. *)
Definition mounts_ok {env : Environment} (s : State) : Prop :=
  mount_wrapper <$> mounted s = seq 0 (length (mounted s))
  ∧ nextElement s = length (mounted s)
  ∧ Forall (λ m, allowOverwrite m = false ∧ mount_tokenUrl m = tokenUrl)
      (mounted s)
  ∧ length (mounted s) = focusCalls s + (if _getValue s then 1 else 0)
  ∧ (∀ w, _wrapper s = Some w → S w = length (mounted s)).

(** One image was inserted and one processed event fired per settled poll,
    one poll was started per save event, no promise was rejected, and every
    inserted image was built from the asset of a poll. *)
Definition inserts_ok {env : Environment} (s : State) : Prop :=
  length (insertImageCalls s) = settled_polls s
  ∧ length (filter is_processed (fired s)) = settled_polls s
  ∧ length (filter is_save (fired s)) = length (polls s)
  ∧ Forall (λ task, ∀ r, poll_state task = Settled r → ∃ v, r = Resolved v)
      (polls s)
  ∧ Forall (λ source, ∃ asset, asset ∈ poll_asset <$> polls s
                               ∧ source = image_source asset)
      (insertImageCalls s).

(** Two edited images were saved from the dialog that was opened on
    [image_A1]. *)
Definition saved_twice_on_A1 : State :=
  step (env := sample_env) (OnSave {| data := success_response |}) saved_on_A1.


(** A whole session: the dialog is opened on [image_A1], the edited image is
    saved, the endpoint answers queued and then success, and the dialog is
    closed. *)
Definition sample_session : list Input :=
  [Refresh; Execute; OnSave saved_asset;
   HttpDone 0 (HttpOk queued_response); DelayElapsed 0;
   HttpDone 0 (HttpOk success_response); OnClose].

(** * Properties *)

(** The cases of the poll an input is about: it waits for an answer, it waits
    for its delay, it is settled, or there is no such poll. *)
Ltac case_poll s i :=
  let asset := fresh "asset" in
  let attempt := fresh "attempt" in
  let r := fresh "r" in
  let Hi := fresh "Hi" in
  destruct (polls s !! i) as [[asset [attempt|attempt|r]]|] eqn:Hi.

(** ** [refresh] *)

Section Refresh.

Lemma is_element_spec e n : is_element e n = true ↔ name e = n.
Proof. unfold is_element. apply String.eqb_eq. Qed.

Lemma hasAttribute_spec e key :
  hasAttribute e key = true ↔ ∃ v, attributes e !! key = Some v.
Proof.
  unfold hasAttribute. rewrite bool_decide_eq_true. reflexivity.
Qed.

(** The guard of [refresh], read as a statement about the selection. *)
Lemma refresh_guard_spec e :
  (is_element e "imageInline" || is_element e "imageBlock")
    && hasAttribute e "ckboxImageId" = true
  ↔ ∃ v, selects_ckbox_image (Some e) v.
Proof.
  rewrite andb_true_iff, orb_true_iff, !is_element_spec, hasAttribute_spec.
  unfold selects_ckbox_image. split.
  - intros [Hn [v Hv]]. exists v, e. auto.
  - intros [v [e' [[= <-] [Hn Hv]]]]. eauto.
Qed.

Lemma refresh_enabled s v :
  selects_ckbox_image (selection s) v →
  isEnabled (refresh s) = true ∧ _ckboxImageId (refresh s) = Some v.
Proof.
  intros Hsel. unfold refresh. cbn.
  destruct Hsel as [e [Hs [Hn Hv]]]. rewrite Hs.
  assert (Hg : (is_element e "imageInline" || is_element e "imageBlock")
                 && hasAttribute e "ckboxImageId" = true).
  { apply refresh_guard_spec. exists v, e. auto. }
  rewrite Hg. cbn. split; [reflexivity | exact Hv].
Qed.

Lemma refresh_disabled s :
  (¬ ∃ v, selects_ckbox_image (selection s) v) →
  isEnabled (refresh s) = false ∧ _ckboxImageId (refresh s) = None.
Proof.
  intros Hsel. unfold refresh. cbn.
  destruct (selection s) as [e|]; [|split; reflexivity].
  destruct ((is_element e "imageInline" || is_element e "imageBlock")
              && hasAttribute e "ckboxImageId") eqn:Hg.
  - exfalso. apply Hsel. by apply refresh_guard_spec.
  - split; reflexivity.
Qed.

(** [refresh] leaves everything but the three cached fields alone. *)
Lemma refresh_frame s :
  controller (refresh s) = controller s
  ∧ _wrapper (refresh s) = _wrapper s
  ∧ selection (refresh s) = selection s
  ∧ insertImageCalls (refresh s) = insertImageCalls s
  ∧ focusCalls (refresh s) = focusCalls s
  ∧ body (refresh s) = body s
  ∧ nextElement (refresh s) = nextElement s
  ∧ mounted (refresh s) = mounted s
  ∧ nextAbortController (refresh s) = nextAbortController s
  ∧ requests (refresh s) = requests s
  ∧ console (refresh s) = console s
  ∧ fired (refresh s) = fired s
  ∧ polls (refresh s) = polls s.
Proof.
  destruct s. unfold refresh. cbn.
  destruct selection0 as [e|]; [|repeat split; reflexivity].
  destruct (_ && _); repeat split; reflexivity.
Qed.

Lemma refresh_polls s : polls (refresh s) = polls s.
Proof. apply refresh_frame. Qed.

Lemma refresh_value s : value (refresh s) = _getValue s.
Proof.
  unfold refresh. cbn.
  destruct (selection s) as [e|]; [|reflexivity].
  destruct (_ && _); reflexivity.
Qed.

(** Two states with the same wrapper and the same selection are refreshed to
    the same cached fields, whatever was cached before. *)
Lemma refresh_cached_from_selection s1 s2 :
  selection s1 = selection s2 →
  isEnabled (refresh s1) = isEnabled (refresh s2)
  ∧ _ckboxImageId (refresh s1) = _ckboxImageId (refresh s2).
Proof.
  intros Hsel. unfold refresh. cbn. rewrite Hsel.
  destruct (selection s2) as [e|]; [|split; reflexivity].
  destruct (_ && _); split; reflexivity.
Qed.

Lemma refresh_idempotent s : refresh (refresh s) = refresh s.
Proof.
  destruct s. unfold refresh. cbn.
  destruct selection0 as [e|]; [|reflexivity].
  destruct (_ && _) eqn:Hg; cbn; rewrite ?Hg; reflexivity.
Qed.

(** C6. After [refresh], a selection that is not an [imageInline] or
    [imageBlock] element with a [ckboxImageId] attribute leaves the command
    disabled with no cached image id; a selection that is such an element
    leaves it enabled with the attribute's value cached.  The two cached
    fields are a function of the selection alone: states that agree on the
    selection are refreshed to the same values, and the selection itself is
    not touched. *)
Theorem refresh_follows_selection (s : State) :
  ((¬ ∃ v, selects_ckbox_image (selection s) v) →
     isEnabled (refresh s) = false ∧ _ckboxImageId (refresh s) = None)
  ∧ (∀ v, selects_ckbox_image (selection s) v →
       isEnabled (refresh s) = true ∧ _ckboxImageId (refresh s) = Some v)
  ∧ (∀ s', selection s' = selection s →
       isEnabled (refresh s') = isEnabled (refresh s)
       ∧ _ckboxImageId (refresh s') = _ckboxImageId (refresh s))
  ∧ selection (refresh s) = selection s.
Proof.
  split; [apply refresh_disabled|].
  split; [intros v; apply refresh_enabled|].
  split; [intros s'; apply refresh_cached_from_selection|].
  apply refresh_frame.
Qed.

Lemma refresh_set_fired l s :
  refresh (set_fired l s) = set_fired l (refresh s).
Proof.
  destruct s. unfold refresh. cbn.
  destruct selection0 as [e|]; [|reflexivity].
  destruct (_ && _); reflexivity.
Qed.

End Refresh.

(** A stale state: [paragraph] is selected while the cached fields still say
    that [image_A1] is; after [refresh] the command is disabled.  With
    [image_A1] selected it is enabled and the cached id is the attribute. *)
Lemma refresh_follows_selection_witness :
  let stale := set_model (Some paragraph) [] opened_on_A1 in
  (isEnabled stale = true ∧ _ckboxImageId stale = Some "A1")
  ∧ (isEnabled (refresh stale) = false
     ∧ _ckboxImageId (refresh stale) = None)
  ∧ (isEnabled (refresh opened_on_A1) = true
     ∧ _ckboxImageId (refresh opened_on_A1) = Some "A1").
Proof.
  split; [split; reflexivity|]. split.
  - apply (proj1 (refresh_follows_selection _)).
    intros [v [e [[= <-] [[Hn|Hn] _]]]]; discriminate Hn.
  - apply (proj1 (proj2 (refresh_follows_selection opened_on_A1)) "A1").
    exists image_A1. split; [reflexivity|]. split; [right|]; reflexivity.
Defined.

(** ** [_getAssetStatusFromServer] *)

Section Status.
Context {env : Environment}.

Lemma truthy_false v : truthy v = false ↔ v = None ∨ v = Some "".
Proof.
  destruct v as [str|]; cbn.
  - rewrite negb_false_iff, String.eqb_eq. split.
    + intros ->. by right.
    + intros [[=]|[= ->]]. reflexivity.
  - split; [by left | reflexivity].
Qed.

Lemma resume_ok response :
  _getAssetStatusFromServer_resume (HttpOk response) =
    if negb (truthy (status_of response))
       || bool_decide (status_of response = Some "queued")
    then Rejected "Image has not been processed yet."
    else Resolved response.
Proof. reflexivity. Qed.

(** C3, as the code has it.  [_getAssetStatusFromServer] throws on a response
    exactly when its [metadataProcessingStatus] is missing, is the empty
    string or is ["queued"]; on every other response it returns the response
    it was given. *)
Theorem getAssetStatusFromServer_throws_iff
    (response : CKBoxRawAssetDataDefinition) :
  (not_ready (HttpOk response)
   ↔ status_of response = None
     ∨ status_of response = Some ""
     ∨ status_of response = Some "queued")
  ∧ (not_ready (HttpOk response)
     ∨ _getAssetStatusFromServer_resume (HttpOk response)
       = Resolved response).
Proof.
  unfold not_ready. rewrite resume_ok.
  destruct (negb (truthy (status_of response))
            || bool_decide (status_of response = Some "queued")) eqn:Hg.
  - split; [|left; eauto]. split; [intros _ | eauto].
    apply orb_true_iff in Hg as [Hg|Hg].
    + apply negb_true_iff, truthy_false in Hg. tauto.
    + apply bool_decide_eq_true in Hg. tauto.
  - split; [|by right]. split; [intros [err [=]]|].
    apply orb_false_iff in Hg as [Hg1 Hg2].
    apply negb_false_iff in Hg1. apply bool_decide_eq_false in Hg2.
    intros [H|[H|H]]; [rewrite H in Hg1; discriminate Hg1 ..| done].
Qed.

End Status.

(** C3, as it is stated, fails on a response whose status is the empty
    string: the status is neither missing nor ["queued"], and the call
    throws all the same. *)
Lemma getAssetStatusFromServer_empty_status :
  ¬ (not_ready (HttpOk empty_status_response)
     ↔ status_of empty_status_response = None
       ∨ status_of empty_status_response = Some "queued").
Proof.
  intros [H _].
  destruct H as [[=]|[=]].
  exists "Image has not been processed yet.". reflexivity.
Qed.

(** ** The mount point *)

Section Session.
Context {env : Environment}.

Lemma on_open_blocked s :
  _wrapper s ≠ None ∨ isEnabled s = false → on_open s = s.
Proof.
  intros H. unfold on_open, _getValue.
  destruct (isEnabled s), (_wrapper s); cbn; try reflexivity.
  destruct H as [H|H]; [by destruct H | discriminate H].
Qed.

Lemma on_open_single_mount_point s :
  single_mount_point s → single_mount_point (on_open s).
Proof.
  unfold on_open, _getValue, single_mount_point. intros Hb.
  destruct (_wrapper s) eqn:Hw; cbn.
  - rewrite orb_true_r. by rewrite Hw.
  - rewrite orb_false_r. destruct (isEnabled s); cbn.
    + by rewrite Hb.
    + by rewrite Hw.
Qed.

Lemma on_close_single_mount_point s :
  single_mount_point s → single_mount_point (on_close s).
Proof.
  unfold on_close, single_mount_point. intros Hb.
  destruct (_wrapper s) as [w|] eqn:Hw; cbn.
  - rewrite Hb, filter_cons, decide_False by (intros H; by apply H).
    reflexivity.
  - by rewrite Hw.
Qed.

Lemma listener_single_mount_point ev s :
  single_mount_point s → single_mount_point (listener ev s).
Proof.
  destruct ev; cbn.
  - apply on_open_single_mount_point.
  - apply on_close_single_mount_point.
  - done.
  - done.
Qed.

Lemma refresh_session_ok s : single_mount_point s → session_ok (refresh s).
Proof.
  intros Hb. split.
  - unfold single_mount_point in *.
    destruct (refresh_frame s) as (_ & -> & _ & _ & _ & -> & _). exact Hb.
  - rewrite refresh_value. unfold _getValue.
    by destruct (refresh_frame s) as (_ & -> & _).
Qed.

Lemma fire_session_ok ev s : single_mount_point s → session_ok (fire ev s).
Proof.
  intros Hb. apply refresh_session_ok, listener_single_mount_point. exact Hb.
Qed.

Lemma http_done_session_ok i answer s :
  session_ok s → session_ok (http_done i answer s).
Proof.
  intros Hs. unfold http_done.
  case_poll s i; try exact Hs.
  destruct (retry attempt _); cbn.
  - apply fire_session_ok, Hs.
  - apply fire_session_ok, Hs.
  - exact Hs.
Qed.

Lemma delay_elapsed_session_ok i s :
  session_ok s → session_ok (delay_elapsed i s).
Proof.
  intros Hs. unfold delay_elapsed.
  case_poll s i; exact Hs.
Qed.

Lemma step_session_ok inp s : session_ok s → session_ok (step inp s).
Proof.
  intros Hs. destruct inp; cbn.
  - apply fire_session_ok, Hs.
  - apply fire_session_ok, Hs.
  - apply fire_session_ok, Hs.
  - apply refresh_session_ok, Hs.
  - exact Hs.
  - by apply http_done_session_ok.
  - by apply delay_elapsed_session_ok.
Qed.

Lemma run_session_ok inputs s : session_ok s → session_ok (run inputs s).
Proof.
  revert s. induction inputs as [|inp inputs IH]; intros s Hs; cbn.
  - exact Hs.
  - apply IH, step_session_ok, Hs.
Qed.

(** C7. Firing [ckboxImageEditor:open] while there is a wrapper, or while
    the command is disabled, changes nothing: the listener returns the state
    it was given, and after the refresh that follows the wrapper, the page,
    the mount calls and the element counter are the ones of before; on a
    refreshed state the event leaves nothing behind but its entry in the
    event log.  In every state the command reaches from its construction the
    page holds the command's wrapper and no second one, and [value] is true
    exactly when there is a wrapper. *)
Theorem open_creates_at_most_one_mount_point :
  (∀ s, _wrapper s ≠ None ∨ isEnabled s = false →
     on_open s = s
     ∧ _wrapper (fire EvOpen s) = _wrapper s
     ∧ body (fire EvOpen s) = body s
     ∧ mounted (fire EvOpen s) = mounted s
     ∧ nextElement (fire EvOpen s) = nextElement s
     ∧ (refreshed s → fire EvOpen s = set_fired (fired s ++ [EvOpen]) s))
  ∧ (∀ inputs sel,
       let s := run inputs (new_command sel) in
       single_mount_point s
       ∧ length (body s) ≤ 1
       ∧ (value s = true ↔ _wrapper s ≠ None)).
Proof.
  split.
  - intros s H.
    assert (Hl : listener EvOpen (set_fired (fired s ++ [EvOpen]) s)
                 = set_fired (fired s ++ [EvOpen]) s).
    { cbn. apply on_open_blocked. exact H. }
    split; [by apply on_open_blocked|].
    unfold fire. rewrite Hl.
    destruct (refresh_frame (set_fired (fired s ++ [EvOpen]) s))
      as (_ & -> & _ & _ & _ & -> & -> & -> & _).
    repeat (split; [reflexivity|]).
    unfold refreshed. intros Hr. by rewrite refresh_set_fired, Hr.
  - intros inputs sel s.
    assert (Hs : session_ok s).
    { apply run_session_ok. split; reflexivity. }
    destruct Hs as [Hb Hv]. split; [exact Hb|]. split.
    + rewrite Hb. destruct (_wrapper s); cbn; lia.
    + rewrite Hv. unfold _getValue. destruct (_wrapper s); split; done.
Qed.

End Session.

(** With the dialog open on [image_A1], a second [execute] mounts nothing. *)
Lemma open_creates_at_most_one_mount_point_witness :
  _wrapper opened_on_A1 = Some 0
  ∧ on_open (env := sample_env) opened_on_A1 = opened_on_A1
  ∧ body (fire (env := sample_env) EvOpen opened_on_A1) = [0]
  ∧ length (mounted (fire (env := sample_env) EvOpen opened_on_A1)) = 1.
Proof.
  assert (H : _wrapper opened_on_A1 ≠ None
              ∨ isEnabled opened_on_A1 = false).
  { left. discriminate. }
  destruct (proj1 (open_creates_at_most_one_mount_point (env := sample_env))
              opened_on_A1 H) as (Ho & _ & Hb & Hm & _).
  split; [reflexivity|]. split; [exact Ho|]. split.
  - rewrite Hb. reflexivity.
  - rewrite Hm. reflexivity.
Defined.

(** ** Closing the dialog *)

Section Close.
Context {env : Environment}.

Lemma on_close_closed s : _wrapper s = None → on_close s = s.
Proof. unfold on_close. by intros ->. Qed.

Lemma on_close_wrapper s : _wrapper (on_close s) = None.
Proof. unfold on_close. by destruct (_wrapper s) eqn:Hw. Qed.

Lemma on_close_removes s w : _wrapper s = Some w → w ∉ body (on_close s).
Proof.
  unfold on_close. intros ->. cbn.
  intros [H _]%list_elem_of_filter. by apply H.
Qed.

Lemma on_close_focus s :
  focusCalls (on_close s)
  = if _getValue s then S (focusCalls s) else focusCalls s.
Proof. unfold on_close, _getValue. by destruct (_wrapper s). Qed.

(** The close listener leaves the model, the cached fields, the requests,
    the event log and the polls alone. *)
Lemma on_close_frame s :
  selection (on_close s) = selection s
  ∧ insertImageCalls (on_close s) = insertImageCalls s
  ∧ isEnabled (on_close s) = isEnabled s
  ∧ _ckboxImageId (on_close s) = _ckboxImageId s
  ∧ controller (on_close s) = controller s
  ∧ nextAbortController (on_close s) = nextAbortController s
  ∧ requests (on_close s) = requests s
  ∧ console (on_close s) = console s
  ∧ fired (on_close s) = fired s
  ∧ polls (on_close s) = polls s.
Proof. unfold on_close. destruct (_wrapper s); repeat split; reflexivity. Qed.

Lemma on_close_idempotent s : on_close (on_close s) = on_close s.
Proof. apply on_close_closed, on_close_wrapper. Qed.

Lemma fire_refreshed ev s : refreshed (fire ev s).
Proof. apply refresh_idempotent. Qed.

Lemma fire_close_wrapper s : _wrapper (fire EvClose s) = None.
Proof.
  unfold fire. set (t := set_fired _ s).
  destruct (refresh_frame (listener EvClose t)) as (_ & -> & _).
  apply on_close_wrapper.
Qed.

(** C8, as the code has it.  From every state the close event leaves the
    command without a wrapper and with [value] false, and takes the wrapper
    out of the page.  The cached image id is not cleared by it: it is what
    [refresh] computes from the selection, which the event does not change.
    A second close event changes nothing but the event log, the close
    listener itself is idempotent, no insert-image call is made, and the
    editing view is focused once when there was a wrapper and not at all
    when there was none. *)
Theorem close_removes_mount_point (s : State) :
  let s' := fire EvClose s in
  _wrapper s' = None
  ∧ value s' = false
  ∧ (∀ w, _wrapper s = Some w → w ∉ body s')
  ∧ selection s' = selection s
  ∧ isEnabled s' = isEnabled (refresh s)
  ∧ _ckboxImageId s' = _ckboxImageId (refresh s)
  ∧ fire EvClose s' = set_fired (fired s' ++ [EvClose]) s'
  ∧ on_close (on_close s) = on_close s
  ∧ insertImageCalls s' = insertImageCalls s
  ∧ focusCalls s' = if _getValue s then S (focusCalls s) else focusCalls s.
Proof.
  intros s'.
  pose proof (fire_close_wrapper s) as Hw. fold s' in Hw.
  set (t := set_fired (fired s ++ [EvClose]) s).
  assert (Hs' : s' = refresh (on_close t)) by reflexivity.
  destruct (refresh_frame (on_close t))
    as (_ & _ & Hsel & Hins & Hfoc & Hbody & _).
  destruct (on_close_frame t) as (Hsel' & Hins' & _).
  split; [exact Hw|].
  split.
  { rewrite Hs', refresh_value. unfold _getValue.
    by rewrite on_close_wrapper. }
  split.
  { intros w Hsw. rewrite Hs', Hbody. by apply on_close_removes. }
  split.
  { by rewrite Hs', Hsel, Hsel'. }
  assert (Hc : selection (on_close t) = selection s) by exact Hsel'.
  split; [|split].
  { rewrite Hs'. by apply refresh_cached_from_selection. }
  { rewrite Hs'. by apply refresh_cached_from_selection. }
  split.
  { unfold fire at 1. cbn [listener].
    rewrite on_close_closed by exact Hw.
    rewrite refresh_set_fired. f_equal. apply fire_refreshed. }
  split; [apply on_close_idempotent|].
  split.
  { by rewrite Hs', Hins, Hins'. }
  rewrite Hs', Hfoc. apply (on_close_focus t).
Qed.

End Close.

(** Closing the dialog that was opened on [image_A1]: the wrapper leaves the
    page, the view is focused once and nothing is inserted. *)
Lemma close_removes_mount_point_witness :
  let s' := fire (env := sample_env) EvClose opened_on_A1 in
  _wrapper opened_on_A1 = Some 0
  ∧ (0 ∉ body s')
  ∧ focusCalls s' = 1
  ∧ insertImageCalls s' = [].
Proof.
  intros s'.
  destruct (close_removes_mount_point (env := sample_env) opened_on_A1)
    as (_ & _ & Hb & _ & _ & _ & _ & _ & Hi & Hf).
  split; [reflexivity|]. split; [by apply Hb|]. split.
  - exact Hf.
  - exact Hi.
Defined.

(** C8, as it is stated, fails when the dialog that was opened on [image_A1]
    is closed: the image is still selected, and the cached image id is still
    the one of the image. *)
Lemma close_keeps_image_id :
  let s' := fire (env := sample_env) EvClose opened_on_A1 in
  _wrapper opened_on_A1 = Some 0
  ∧ _wrapper s' = None
  ∧ _ckboxImageId (on_close opened_on_A1) = Some "A1"
  ∧ _ckboxImageId s' = Some "A1"
  ∧ _ckboxImageId s' ≠ None.
Proof. repeat split; try reflexivity. discriminate. Qed.

(** ** Waiting for the asset *)

Section Poll.
Context {env : Environment}.

Implicit Types (s : State) (asset : CKBoxRawAssetDefinition).

Lemma catch_resolves r :
  ∃ v, _waitForAssetProcessed_catch r = Resolved v.
Proof. destruct r; cbn; eauto. Qed.

(** What firing [ckboxImageEditor:processed] does. *)
Lemma fire_processed asset s :
  let s' := fire (EvProcessed asset) s in
  fired s' = fired s ++ [EvProcessed asset]
  ∧ insertImageCalls s' = insertImageCalls s ++ [image_source asset]
  ∧ selection s'
    = (setAttribute "ckboxImageId" (id (data asset))
         <$> insertImage (image_source asset) (selection s))
  ∧ polls s' = polls s
  ∧ requests s' = requests s
  ∧ nextAbortController s' = nextAbortController s
  ∧ controller s' = controller s
  ∧ console s' = console s
  ∧ _wrapper s' = _wrapper s
  ∧ body s' = body s.
Proof.
  intros s'. subst s'. unfold fire.
  destruct (refresh_frame
              (listener (EvProcessed asset)
                 (set_fired (fired s ++ [EvProcessed asset]) s)))
    as (-> & -> & -> & -> & _ & -> & _ & _ & -> & -> & -> & -> & ->).
  repeat split; reflexivity.
Qed.

(** What the settlement of the promise with a value does. *)
Lemma settle_resolved i asset v s :
  let s' := settle i asset (Resolved v) s in
  polls s' = <[i := {| poll_asset := asset;
                       poll_state := Settled (Resolved v) |}]> (polls s)
  ∧ fired s' = fired s ++ [EvProcessed asset]
  ∧ insertImageCalls s' = insertImageCalls s ++ [image_source asset]
  ∧ selection s'
    = (setAttribute "ckboxImageId" (id (data asset))
         <$> insertImage (image_source asset) (selection s))
  ∧ requests s' = requests s
  ∧ nextAbortController s' = nextAbortController s
  ∧ controller s' = controller s
  ∧ console s' = console s
  ∧ _wrapper s' = _wrapper s.
Proof.
  intros s'. subst s'. unfold settle.
  set (t := set_polls _ s).
  destruct (fire_processed asset t)
    as (-> & -> & -> & -> & -> & -> & -> & -> & -> & _).
  repeat split; reflexivity.
Qed.

Lemma http_done_return i asset attempt answer response s :
  polls s !! i = Some {| poll_asset := asset;
                         poll_state := AwaitingResponse attempt |} →
  _getAssetStatusFromServer_resume answer = Resolved response →
  http_done i answer s = settle i asset (Resolved (Some response)) s.
Proof. intros Hp Hr. unfold http_done. by rewrite Hp, Hr. Qed.

Lemma http_done_throw i asset attempt answer err s :
  polls s !! i = Some {| poll_asset := asset;
                         poll_state := AwaitingResponse attempt |} →
  retry attempt (_getAssetStatusFromServer_resume answer) = RetryThrow err →
  http_done i answer s = settle i asset (Resolved None) s.
Proof. intros Hp Hr. unfold http_done. by rewrite Hp, Hr. Qed.

Lemma http_done_again i asset attempt answer s :
  polls s !! i = Some {| poll_asset := asset;
                         poll_state := AwaitingResponse attempt |} →
  not_ready answer →
  S attempt < maxAttempts →
  http_done i answer s
  = set_polls (<[i := {| poll_asset := asset;
                         poll_state := AwaitingDelay (S attempt) |}]>
                 (polls s)) s.
Proof.
  intros Hp [err Hr] Hlt. unfold http_done. rewrite Hp, Hr. cbn.
  destruct (Nat.leb_spec maxAttempts (S attempt)); [lia | reflexivity].
Qed.

Lemma retry_last attempt err :
  maxAttempts ≤ S attempt →
  retry (A := CKBoxRawAssetDataDefinition) attempt (Rejected err)
  = RetryThrow err.
Proof.
  intros Hle. cbn.
  destruct (Nat.leb_spec maxAttempts (S attempt)); [reflexivity | lia].
Qed.

Lemma http_done_settled i asset r answer s :
  polls s !! i = Some {| poll_asset := asset; poll_state := Settled r |} →
  http_done i answer s = s.
Proof. intros Hp. unfold http_done. by rewrite Hp. Qed.

Lemma delay_elapsed_not_delayed i asset st s :
  polls s !! i = Some {| poll_asset := asset; poll_state := st |} →
  (∀ attempt, st ≠ AwaitingDelay attempt) →
  delay_elapsed i s = s.
Proof.
  intros Hp Hst. unfold delay_elapsed. rewrite Hp.
  destruct st; try reflexivity. by destruct (Hst attempt).
Qed.

Lemma delay_elapsed_delayed i asset attempt s :
  polls s !! i = Some {| poll_asset := asset;
                         poll_state := AwaitingDelay attempt |} →
  delay_elapsed i s
  = set_polls (<[i := {| poll_asset := asset;
                         poll_state := AwaitingResponse attempt |}]>
                 (polls s))
      (_getAssetStatusFromServer_send (data asset) s).
Proof. intros Hp. unfold delay_elapsed. by rewrite Hp. Qed.

Lemma poll_requests_S data c k :
  poll_requests data c (S k)
  = {| req_url := {| url_input := "assets/" +:+ id data;
                     url_base := serviceOrigin |};
       signal := c;
       authorization := token |} :: poll_requests data (S c) k.
Proof. reflexivity. Qed.

Lemma poll_requests_length data c k : length (poll_requests data c k) = k.
Proof. unfold poll_requests. by rewrite length_fmap, length_seq. Qed.

Lemma poll_advanced_0 i asset attempt s :
  polls s !! i = Some {| poll_asset := asset;
                         poll_state := AwaitingResponse attempt |} →
  poll_advanced i asset attempt 0 s = s.
Proof.
  intros Hp. unfold poll_advanced. cbn.
  rewrite !Nat.add_0_r, app_nil_r, list_insert_id by exact Hp.
  by destruct s.
Qed.

(** A failed attempt that is not the last one, and the delay after it. *)
Lemma poll_failure i asset attempt answer s :
  polls s !! i = Some {| poll_asset := asset;
                         poll_state := AwaitingResponse attempt |} →
  not_ready answer →
  S attempt < maxAttempts →
  delay_elapsed i (http_done i answer s) = poll_advanced i asset attempt 1 s.
Proof.
  intros Hp Hn Hlt.
  pose proof (lookup_lt_Some _ _ _ Hp) as Hi.
  rewrite (http_done_again i asset attempt answer s Hp Hn Hlt).
  erewrite delay_elapsed_delayed
    by (cbn; by apply list_lookup_insert_eq).
  unfold poll_advanced, _getAssetStatusFromServer_send. cbn.
  rewrite list_insert_insert_eq.
  by rewrite !Nat.add_1_r.
Qed.

Lemma poll_advanced_S i asset attempt k s :
  poll_advanced i asset (S attempt) k (poll_advanced i asset attempt 1 s)
  = poll_advanced i asset attempt (S k) s.
Proof.
  unfold poll_advanced. cbn.
  rewrite list_insert_insert_eq, <- app_assoc. cbn.
  rewrite !Nat.add_1_r, !Nat.add_succ_r. reflexivity.
Qed.

Lemma poll_advanced_lookup i asset attempt k s :
  i < length (polls s) →
  polls (poll_advanced i asset attempt k s) !! i
  = Some {| poll_asset := asset;
            poll_state := AwaitingResponse (attempt + k) |}.
Proof. intros Hi. cbn. by apply list_lookup_insert_eq. Qed.

(** Attempts that fail without exhausting the bound leave the poll waiting
    for the next answer; each of them sent one request. *)
Lemma run_poll_failures answers : ∀ i asset attempt s,
  polls s !! i = Some {| poll_asset := asset;
                         poll_state := AwaitingResponse attempt |} →
  Forall not_ready answers →
  attempt + length answers < attempt_bound →
  run_poll i answers s = poll_advanced i asset attempt (length answers) s.
Proof.
  induction answers as [|answer answers IH]; intros i asset attempt s Hp Hn Hlt.
  - cbn. symmetry. by apply poll_advanced_0.
  - apply Forall_cons in Hn as [Hn Hns]. cbn in Hlt |- *.
    assert (Hmax : S attempt < maxAttempts).
    { unfold attempt_bound in Hlt. lia. }
    rewrite (poll_failure i asset attempt answer s Hp Hn Hmax).
    rewrite (IH i asset (S attempt)).
    + apply poll_advanced_S.
    + rewrite poll_advanced_lookup by (by eapply lookup_lt_Some).
      by rewrite Nat.add_1_r.
    + exact Hns.
    + lia.
Qed.

Lemma run_poll_app i answers1 answers2 s :
  run_poll i (answers1 ++ answers2) s
  = run_poll i answers2 (run_poll i answers1 s).
Proof.
  revert s. induction answers1 as [|a answers1 IH]; intros s; cbn.
  - reflexivity.
  - apply IH.
Qed.

(** What firing [ckboxImageEditor:save] does. *)
Lemma fire_save asset s :
  let s' := fire (EvSave asset) s in
  polls s' = polls s ++ [ {| poll_asset := asset;
                             poll_state := AwaitingResponse 0 |} ]
  ∧ requests s'
    = requests s ++ poll_requests (data asset) (nextAbortController s) 1
  ∧ nextAbortController s' = S (nextAbortController s)
  ∧ fired s' = fired s ++ [EvSave asset]
  ∧ insertImageCalls s' = insertImageCalls s
  ∧ selection s' = selection s
  ∧ console s' = console s
  ∧ _wrapper s' = _wrapper s.
Proof.
  intros s'. subst s'. unfold fire.
  destruct (refresh_frame
              (listener (EvSave asset)
                 (set_fired (fired s ++ [EvSave asset]) s)))
    as (_ & -> & -> & -> & _ & _ & _ & _ & -> & -> & -> & -> & ->).
  repeat split; reflexivity.
Qed.

Lemma resume_ready response :
  ¬ not_ready (HttpOk response) →
  _getAssetStatusFromServer_resume (HttpOk response) = Resolved response.
Proof.
  intros Hn. rewrite resume_ok.
  destruct (_ || _) eqn:Hg; [|reflexivity].
  exfalso. apply Hn. unfold not_ready. rewrite resume_ok, Hg. eauto.
Qed.

(** What firing [ckboxImageEditor:close] leaves alone. *)
Lemma fire_close_frame s :
  let s' := fire EvClose s in
  polls s' = polls s
  ∧ requests s' = requests s
  ∧ nextAbortController s' = nextAbortController s
  ∧ fired s' = fired s ++ [EvClose]
  ∧ insertImageCalls s' = insertImageCalls s
  ∧ console s' = console s.
Proof.
  intros s'. subst s'. unfold fire.
  set (t := set_fired (fired s ++ [EvClose]) s).
  destruct (refresh_frame (listener EvClose t))
    as (_ & _ & _ & -> & _ & _ & _ & _ & -> & -> & -> & -> & ->).
  destruct (on_close_frame t) as (_ & Hi & _ & _ & _ & Hn & Hr & Hc & Hf & Hp).
  cbn [listener]. rewrite Hi, Hn, Hr, Hc, Hf, Hp.
  repeat split; reflexivity.
Qed.

(** C2. The poll a save event starts carries the asset of that event.
    Whenever the answer to one of its requests settles the promise of
    [_waitForAssetProcessed], the promise is resolved, the processed event is
    fired with the asset of the save event, and the insert-image command is
    executed with the source built from that asset.  This includes the
    answer on which [retry] throws: the promise resolves with [undefined],
    and the event and the insertion follow all the same. *)
Theorem processed_fired_whenever_wait_resolves
    (i : nat) (asset : CKBoxRawAssetDefinition) (attempt : nat)
    (answer : HttpResult) (s : State) :
  polls s !! i = Some {| poll_asset := asset;
                         poll_state := AwaitingResponse attempt |} →
  let s' := http_done i answer s in
  (∀ s0 a, polls (fire (EvSave a) s0) !! length (polls s0)
           = Some {| poll_asset := a; poll_state := AwaitingResponse 0 |})
  ∧ (∀ r, polls s' !! i = Some {| poll_asset := asset;
                                  poll_state := Settled r |} →
       (∃ v, r = Resolved v)
       ∧ fired s' = fired s ++ [EvProcessed asset]
       ∧ insertImageCalls s' = insertImageCalls s ++ [image_source asset])
  ∧ (∀ err,
       retry attempt (_getAssetStatusFromServer_resume answer)
       = RetryThrow err →
       polls s' !! i = Some {| poll_asset := asset;
                               poll_state := Settled (Resolved None) |}
       ∧ fired s' = fired s ++ [EvProcessed asset]
       ∧ insertImageCalls s' = insertImageCalls s ++ [image_source asset]).
Proof.
  intros Hp s'.
  pose proof (lookup_lt_Some _ _ _ Hp) as Hi.
  split; [|split].
  - intros s0 a. destruct (fire_save a s0) as (-> & _).
    by rewrite list_lookup_middle.
  - intros r Hr. subst s'. unfold http_done in *. rewrite Hp in *.
    destruct (retry attempt _) as [response|err|next].
    + destruct (settle_resolved i asset (Some response) s)
        as (Hpo & Hf & Hins & _).
      cbn [_waitForAssetProcessed_catch] in *.
      rewrite Hpo, list_lookup_insert_eq in Hr by exact Hi.
      injection Hr as <-. eauto.
    + destruct (settle_resolved i asset None s) as (Hpo & Hf & Hins & _).
      cbn [_waitForAssetProcessed_catch] in *.
      rewrite Hpo, list_lookup_insert_eq in Hr by exact Hi.
      injection Hr as <-. eauto.
    + cbn in Hr. rewrite list_lookup_insert_eq in Hr by exact Hi.
      discriminate Hr.
  - intros err Hr. subst s'.
    rewrite (http_done_throw i asset attempt answer err s Hp Hr).
    destruct (settle_resolved i asset None s) as (-> & Hf & Hins & _).
    rewrite list_lookup_insert_eq by exact Hi. auto.
Qed.

(** C4. When [retry] throws, [_waitForAssetProcessed] catches what was
    thrown and resolves with [undefined]: its promise is never rejected,
    nothing is written to the console, and the one event that is fired is the
    processed event of the asset. *)
Theorem exhausted_retry_is_swallowed
    (i : nat) (asset : CKBoxRawAssetDefinition) (attempt : nat)
    (answer : HttpResult) (err : string) (s : State) :
  polls s !! i = Some {| poll_asset := asset;
                         poll_state := AwaitingResponse attempt |} →
  retry attempt (_getAssetStatusFromServer_resume answer) = RetryThrow err →
  let s' := http_done i answer s in
  _waitForAssetProcessed_catch (Rejected err) = Resolved None
  ∧ (∀ r, ∃ v, _waitForAssetProcessed_catch r = Resolved v)
  ∧ polls s' !! i = Some {| poll_asset := asset;
                            poll_state := Settled (Resolved None) |}
  ∧ console s' = console s
  ∧ fired s' = fired s ++ [EvProcessed asset].
Proof.
  intros Hp Hr s'. subst s'.
  pose proof (lookup_lt_Some _ _ _ Hp) as Hi.
  rewrite (http_done_throw i asset attempt answer err s Hp Hr).
  destruct (settle_resolved i asset None s)
    as (-> & -> & _ & _ & _ & _ & _ & -> & _).
  rewrite list_lookup_insert_eq by exact Hi.
  repeat split. apply catch_resolves.
Qed.

(** The poll of a save event after [k] failed attempts that did not exhaust
    the bound. *)
Lemma saved_poll_failures asset answers s :
  Forall not_ready answers →
  length answers < attempt_bound →
  let i := length (polls s) in
  let s1 := run_poll i answers (fire (EvSave asset) s) in
  polls s1 !! i = Some {| poll_asset := asset;
                          poll_state := AwaitingResponse (length answers) |}
  ∧ length (requests s1) = length (requests s) + length answers + 1
  ∧ fired s1 = fired s ++ [EvSave asset]
  ∧ insertImageCalls s1 = insertImageCalls s
  ∧ selection s1 = selection s
  ∧ console s1 = console s.
Proof.
  intros Hn Hlt i s1.
  destruct (fire_save asset s) as (Hp & Hr & _ & Hf & Hins & Hsel & Hc).
  assert (Hi : polls (fire (EvSave asset) s) !! i
               = Some {| poll_asset := asset;
                         poll_state := AwaitingResponse 0 |}).
  { rewrite Hp. by rewrite list_lookup_middle. }
  subst s1.
  rewrite (run_poll_failures answers i asset 0 _ Hi Hn) by exact Hlt.
  rewrite poll_advanced_lookup by (by eapply lookup_lt_Some).
  split; [reflexivity|]. cbn.
  rewrite Hr, !length_app, !poll_requests_length, Hf, Hins, Hsel.
  destruct Hc as [-> _].
  repeat split; try reflexivity. cbn. lia.
Qed.

Lemma fire_polls ev s :
  polls (fire ev s)
  = match ev with
    | EvSave asset => polls s ++ [ {| poll_asset := asset;
                                      poll_state := AwaitingResponse 0 |} ]
    | _ => polls s
    end.
Proof.
  unfold fire. rewrite refresh_polls.
  destruct ev; cbn [listener]; try reflexivity.
  - unfold on_open. by destruct (_ || _).
  - by destruct (on_close_frame (set_fired (fired s ++ [EvClose]) s))
      as (_ & _ & _ & _ & _ & _ & _ & _ & _ & ->).
Qed.

Lemma fire_polls_bounded ev s : polls_bounded s → polls_bounded (fire ev s).
Proof.
  unfold polls_bounded. rewrite fire_polls. intros Hs.
  destruct ev; try exact Hs.
  apply Forall_app. split; [exact Hs|].
  apply Forall_singleton. unfold within_bound, attempt_bound. cbn. lia.
Qed.

Lemma step_polls_bounded inp s : polls_bounded s → polls_bounded (step inp s).
Proof.
  intros Hs. destruct inp; cbn [step]; try by apply fire_polls_bounded.
  - unfold polls_bounded. by rewrite refresh_polls.
  - exact Hs.
  - unfold http_done.
    case_poll s i; try exact Hs.
    unfold retry.
    destruct (_getAssetStatusFromServer_resume answer) as [response|err];
      [|destruct (Nat.leb_spec maxAttempts (S attempt))];
      cbn [_waitForAssetProcessed_catch settle].
    + apply fire_polls_bounded, Forall_insert; done.
    + apply fire_polls_bounded, Forall_insert; done.
    + apply Forall_insert; [exact Hs|].
      unfold within_bound, attempt_bound. cbn. lia.
  - unfold delay_elapsed.
    case_poll s i;
      try exact Hs.
    apply Forall_insert; [exact Hs|].
    unfold polls_bounded in Hs. rewrite Forall_lookup in Hs.
    apply (Hs i _ Hi).
Qed.

Lemma run_polls_bounded inputs s :
  polls_bounded s → polls_bounded (run inputs s).
Proof.
  revert s. induction inputs as [|inp inputs IH]; intros s Hs; cbn.
  - exact Hs.
  - by apply IH, step_polls_bounded.
Qed.

(** C5. Against an endpoint whose answers are all not ready, the wait a save
    event starts is over after as many answers as [retry] makes attempts:
    the promise is settled, exactly that many requests were sent, and
    neither a further answer nor a further delay makes the poll do
    anything.  The number of attempts is [maxAttempts] when that is
    positive.  And whatever happens to the command from its construction
    on, no pending poll is ever at an attempt beyond that number. *)
Theorem wait_terminates_after_attempt_bound
    (asset : CKBoxRawAssetDefinition) (answers : list HttpResult) (s : State) :
  Forall not_ready answers →
  length answers = attempt_bound →
  let i := length (polls s) in
  let s' := run_poll i answers (fire (EvSave asset) s) in
  polls s' !! i = Some {| poll_asset := asset;
                          poll_state := Settled (Resolved None) |}
  ∧ length (requests s') = length (requests s) + attempt_bound
  ∧ (∀ answer, http_done i answer s' = s')
  ∧ delay_elapsed i s' = s'
  ∧ (0 < maxAttempts → attempt_bound = maxAttempts)
  ∧ (∀ inputs sel, polls_bounded (run inputs (new_command sel))).
Proof.
  intros Hn Hlen i s'.
  destruct answers as [|last front _] using rev_ind.
  { unfold attempt_bound in Hlen. cbn in Hlen. lia. }
  rewrite length_app in Hlen. cbn in Hlen.
  apply Forall_app in Hn as [Hfront Hlast].
  apply Forall_singleton in Hlast as [err Hlast].
  assert (Hlt : length front < attempt_bound) by lia.
  destruct (saved_poll_failures asset front s Hfront Hlt)
    as (Hp & Hr & _).
  fold i in Hp, Hr.
  set (s1 := run_poll i front (fire (EvSave asset) s)) in *.
  assert (Hthrow : retry (length front)
                     (_getAssetStatusFromServer_resume last)
                   = RetryThrow err).
  { rewrite Hlast. apply retry_last. unfold attempt_bound in Hlen. lia. }
  pose proof (lookup_lt_Some _ _ _ Hp) as Hi.
  assert (Hs' : s' = settle i asset (Resolved None) s1).
  { subst s'. rewrite run_poll_app. fold s1. cbn [run_poll].
    rewrite (http_done_throw i asset _ last err s1 Hp Hthrow).
    apply (delay_elapsed_not_delayed i asset (Settled (Resolved None))).
    - destruct (settle_resolved i asset None s1) as (-> & _).
      by apply list_lookup_insert_eq.
    - discriminate. }
  destruct (settle_resolved i asset None s1)
    as (Hpolls & _ & _ & _ & Hreq & _).
  assert (Hsettled : polls s' !! i
                     = Some {| poll_asset := asset;
                               poll_state := Settled (Resolved None) |}).
  { rewrite Hs', Hpolls. by apply list_lookup_insert_eq. }
  split; [exact Hsettled|]. split; [|split; [|split; [|split]]].
  - rewrite Hs', Hreq, Hr. lia.
  - intros answer. by eapply http_done_settled.
  - eapply delay_elapsed_not_delayed; [exact Hsettled | discriminate].
  - unfold attempt_bound. lia.
  - intros inputs sel. apply run_polls_bounded. constructor.
Qed.

(** C1, as the code has it.  When the endpoint answers not ready [N] times,
    with [N] below the number of attempts [retry] makes, and then with a
    response that is ready, the promise of [_waitForAssetProcessed] resolves
    with that response after exactly [N + 1] requests.  The processed event
    that follows carries the asset of the save event, not the response: the
    source given to the insert-image command is built from the asset of the
    save event, and the selected element gets the id of that asset. *)
Theorem poll_resolves_with_success_response
    (asset : CKBoxRawAssetDefinition) (answers : list HttpResult)
    (response : CKBoxRawAssetDataDefinition) (s : State) :
  Forall not_ready answers →
  length answers < attempt_bound →
  ¬ not_ready (HttpOk response) →
  let i := length (polls s) in
  let s' := run_poll i (answers ++ [HttpOk response])
              (fire (EvSave asset) s) in
  polls s' !! i
  = Some {| poll_asset := asset;
            poll_state := Settled (Resolved (Some response)) |}
  ∧ length (requests s') = length (requests s) + length answers + 1
  ∧ fired s' = fired s ++ [EvSave asset; EvProcessed asset]
  ∧ insertImageCalls s' = insertImageCalls s ++ [image_source asset]
  ∧ selection s'
    = (setAttribute "ckboxImageId" (id (data asset))
         <$> insertImage (image_source asset) (selection s)).
Proof.
  intros Hn Hlt Hready i s'.
  destruct (saved_poll_failures asset answers s Hn Hlt)
    as (Hp & Hr & Hf & Hins & Hsel & _).
  fold i in Hp, Hr, Hf, Hins, Hsel.
  set (s1 := run_poll i answers (fire (EvSave asset) s)) in *.
  pose proof (lookup_lt_Some _ _ _ Hp) as Hi.
  assert (Hs' : s' = settle i asset (Resolved (Some response)) s1).
  { subst s'. rewrite run_poll_app. fold s1. cbn [run_poll].
    rewrite (http_done_return i asset _ _ response s1 Hp
               (resume_ready response Hready)).
    apply (delay_elapsed_not_delayed i asset
             (Settled (Resolved (Some response)))).
    - destruct (settle_resolved i asset (Some response) s1) as (-> & _).
      by apply list_lookup_insert_eq.
    - discriminate. }
  destruct (settle_resolved i asset (Some response) s1)
    as (Hpolls & Hfired & Hcalls & Hselect & Hreq & _).
  rewrite Hs', Hpolls, Hfired, Hcalls, Hselect, Hreq, Hr, Hf, Hins, Hsel.
  rewrite list_lookup_insert_eq by exact Hi.
  rewrite <- app_assoc. repeat split; reflexivity.
Qed.

(** C9. The close event leaves the polls and the requests they sent as they
    are.  A poll that waits for its delay sends its next request after the
    close event as it would have before, and a poll that waits for an answer
    is settled by a ready response after the close event: the processed event
    is fired and the image is inserted while the command has no wrapper and
    [value] is false. *)
Theorem close_does_not_cancel_poll (s : State) :
  let s1 := fire EvClose s in
  polls s1 = polls s
  ∧ requests s1 = requests s
  ∧ _wrapper s1 = None
  ∧ value s1 = false
  ∧ (∀ i asset attempt,
       polls s !! i = Some {| poll_asset := asset;
                              poll_state := AwaitingDelay attempt |} →
       let s2 := delay_elapsed i s1 in
       polls s2 !! i = Some {| poll_asset := asset;
                               poll_state := AwaitingResponse attempt |}
       ∧ requests s2
         = requests s ++ poll_requests (data asset) (nextAbortController s) 1)
  ∧ (∀ i asset attempt response,
       polls s !! i = Some {| poll_asset := asset;
                              poll_state := AwaitingResponse attempt |} →
       ¬ not_ready (HttpOk response) →
       let s2 := http_done i (HttpOk response) s1 in
       polls s2 !! i
       = Some {| poll_asset := asset;
                 poll_state := Settled (Resolved (Some response)) |}
       ∧ fired s2 = fired s ++ [EvClose; EvProcessed asset]
       ∧ insertImageCalls s2 = insertImageCalls s ++ [image_source asset]
       ∧ _wrapper s2 = None
       ∧ value s2 = false).
Proof.
  intros s1.
  destruct (fire_close_frame s) as (Hp & Hr & Hn & Hf & Hins & _).
  fold s1 in Hp, Hr, Hn, Hf, Hins.
  pose proof (fire_close_wrapper s) as Hw. fold s1 in Hw.
  assert (Hv : value s1 = false).
  { subst s1. unfold fire. rewrite refresh_value. unfold _getValue.
    cbn [listener]. by rewrite on_close_wrapper. }
  split; [exact Hp|]. split; [exact Hr|]. split; [exact Hw|].
  split; [exact Hv|]. split.
  - intros i asset attempt Hi s2. subst s2.
    rewrite <- Hp in Hi.
    pose proof (lookup_lt_Some _ _ _ Hi) as Hlt.
    rewrite (delay_elapsed_delayed i asset attempt s1 Hi). cbn.
    rewrite list_lookup_insert_eq by exact Hlt.
    by rewrite Hr, Hn.
  - intros i asset attempt response Hi Hready s2. subst s2.
    rewrite <- Hp in Hi.
    pose proof (lookup_lt_Some _ _ _ Hi) as Hlt.
    rewrite (http_done_return i asset attempt _ response s1 Hi
               (resume_ready response Hready)).
    destruct (settle_resolved i asset (Some response) s1)
      as (-> & -> & -> & _ & _ & _ & _ & _ & Hw2).
    rewrite list_lookup_insert_eq by exact Hlt.
    rewrite Hf, Hins, <- app_assoc, Hw2, Hw.
    repeat split; try reflexivity.
    unfold settle, fire. rewrite refresh_value. unfold _getValue.
    cbn. by rewrite Hw.
Qed.

End Poll.

(** ** Abort controllers *)

Section Controllers.
Context {env : Environment}.

Lemma controllers_ok_frame s s' :
  controller s' = controller s →
  nextAbortController s' = nextAbortController s →
  requests s' = requests s →
  controllers_ok s → controllers_ok s'.
Proof.
  unfold controllers_ok, signals. intros -> -> ->. done.
Qed.

Lemma send_controllers_ok data s :
  controllers_ok s → controllers_ok (_getAssetStatusFromServer_send data s).
Proof.
  unfold controllers_ok, signals. intros (Hc & Hn & Hs). cbn.
  rewrite fmap_app, length_app, Hs, Hn. cbn.
  rewrite Nat.add_1_r, seq_S. cbn. done.
Qed.

Lemma refresh_controllers_ok s :
  controllers_ok s → controllers_ok (refresh s).
Proof.
  destruct (refresh_frame s) as (Hc & _ & _ & _ & _ & _ & _ & _ & Hn & Hr & _).
  by apply controllers_ok_frame.
Qed.

Lemma listener_controllers_ok ev s :
  controllers_ok s → controllers_ok (listener ev s).
Proof.
  intros Hs. destruct ev; cbn [listener].
  - unfold on_open. destruct (_ || _); [exact Hs|].
    revert Hs. by apply controllers_ok_frame.
  - destruct (on_close_frame s) as (_ & _ & _ & _ & Hc & Hn & Hr & _).
    revert Hs. by apply controllers_ok_frame.
  - unfold on_save.
    apply (controllers_ok_frame (_getAssetStatusFromServer_send (data asset) s));
      try reflexivity.
    by apply send_controllers_ok.
  - revert Hs. by apply controllers_ok_frame.
Qed.

Lemma fire_controllers_ok ev s : controllers_ok s → controllers_ok (fire ev s).
Proof.
  intros Hs. apply refresh_controllers_ok, listener_controllers_ok.
  revert Hs. by apply controllers_ok_frame.
Qed.

Lemma step_controllers_ok inp s : controllers_ok s → controllers_ok (step inp s).
Proof.
  intros Hs. destruct inp; cbn [step].
  - by apply fire_controllers_ok.
  - by apply fire_controllers_ok.
  - by apply fire_controllers_ok.
  - by apply refresh_controllers_ok.
  - revert Hs. by apply controllers_ok_frame.
  - unfold http_done.
    case_poll s i; try exact Hs.
    destruct (retry attempt _); cbn [_waitForAssetProcessed_catch settle].
    + apply fire_controllers_ok. revert Hs. by apply controllers_ok_frame.
    + apply fire_controllers_ok. revert Hs. by apply controllers_ok_frame.
    + revert Hs. by apply controllers_ok_frame.
  - unfold delay_elapsed.
    case_poll s i; try exact Hs.
    apply (controllers_ok_frame (_getAssetStatusFromServer_send (data asset) s));
      try reflexivity.
    by apply send_controllers_ok.
Qed.

Lemma run_controllers_ok inputs s :
  controllers_ok s → controllers_ok (run inputs s).
Proof.
  revert s. induction inputs as [|inp inputs IH]; intros s Hs; cbn.
  - exact Hs.
  - by apply IH, step_controllers_ok.
Qed.

(** C10. In every state the command reaches from its construction, the
    signals of the requests that were sent are pairwise different and none
    of them is the signal of the controller the constructor created; a
    further call of [_getAssetStatusFromServer] sends one request, with the
    signal of a controller that is created by that call and that no earlier
    request carries. *)
Theorem each_request_has_a_fresh_abort_controller
    (inputs : list Input) (sel : option ModelElement) :
  let s := run inputs (new_command sel) in
  NoDup (signals s)
  ∧ (controller s ∉ signals s)
  ∧ ∀ data,
      let s' := _getAssetStatusFromServer_send data s in
      ∃ request,
        requests s' = requests s ++ [request]
        ∧ signal request = nextAbortController s
        ∧ nextAbortController s' = S (nextAbortController s)
        ∧ (signal request ∉ signals s)
        ∧ signal request ≠ controller s
        ∧ controller s' = controller s.
Proof.
  intros s.
  assert (Hs : controllers_ok s).
  { apply run_controllers_ok. repeat split. }
  clearbody s. destruct Hs as (Hc & Hn & Hs). rewrite Hs, Hc.
  split; [apply NoDup_seq|].
  split; [rewrite elem_of_seq; lia|].
  intros data s'. eexists. split; [reflexivity|]. cbn.
  rewrite Hn, Hc, elem_of_seq.
  repeat split; try reflexivity; lia.
Qed.

End Controllers.

(** ** The properties on the sample session *)

Lemma queued_not_ready : not_ready (HttpOk queued_response).
Proof. exists "Image has not been processed yet.". reflexivity. Qed.

Lemma success_ready : ¬ not_ready (HttpOk success_response).
Proof. intros [err H]. discriminate H. Qed.

(** The endpoint answers queued twice and then success: three requests, the
    promise resolves with the success response, and the image that is
    inserted is built from the saved asset. *)
Lemma poll_resolves_with_success_response_witness :
  let s' := run_poll (env := sample_env) 0
              [HttpOk queued_response; HttpOk queued_response;
               HttpOk success_response] saved_on_A1 in
  polls s' !! 0
  = Some {| poll_asset := saved_asset;
            poll_state := Settled (Resolved (Some success_response)) |}
  ∧ length (requests s') = 3
  ∧ fired s' = [EvOpen; EvSave saved_asset; EvProcessed saved_asset]
  ∧ insertImageCalls s' = [image_source (env := sample_env) saved_asset].
Proof.
  intros s'.
  destruct (poll_resolves_with_success_response (env := sample_env)
              saved_asset [HttpOk queued_response; HttpOk queued_response]
              success_response opened_on_A1)
    as (Hp & Hr & Hf & Hi & _).
  - repeat constructor; apply queued_not_ready.
  - vm_compute. lia.
  - apply success_ready.
  - split; [exact Hp|]. split; [exact Hr|]. split; [exact Hf | exact Hi].
Defined.

(** C1, as it is stated, fails on the sample session.  After queued, queued,
    success the promise resolves with the success response, and yet the
    processed event carries the saved asset, whose data is not that
    response, and the inserted image has the width and height of the saved
    asset rather than those of the response.  And when queued is answered
    four times, as many as [retry] makes attempts, the success that would
    follow is never asked for: the promise resolves with [undefined] after
    four requests. *)
Lemma processed_carries_saved_asset :
  let s' := run_poll (env := sample_env) 0
              [HttpOk queued_response; HttpOk queued_response;
               HttpOk success_response] saved_on_A1 in
  let s4 := run_poll (env := sample_env) 0
              [HttpOk queued_response; HttpOk queued_response;
               HttpOk queued_response; HttpOk queued_response;
               HttpOk success_response] saved_on_A1 in
  polls s' !! 0
  = Some {| poll_asset := saved_asset;
            poll_state := Settled (Resolved (Some success_response)) |}
  ∧ fired s' = [EvOpen; EvSave saved_asset; EvProcessed saved_asset]
  ∧ data saved_asset ≠ success_response
  ∧ insertImageCalls s' = [image_source (env := sample_env) saved_asset]
  ∧ image_source (env := sample_env) saved_asset
    ≠ image_source (env := sample_env) {| data := success_response |}
  ∧ polls s4 !! 0
    = Some {| poll_asset := saved_asset;
              poll_state := Settled (Resolved None) |}
  ∧ length (requests s4) = 4.
Proof.
  repeat split; try reflexivity; discriminate.
Qed.

(** The answer to the last attempt says queued: the processed event is fired
    with the saved asset and the image is inserted. *)
Lemma processed_fired_whenever_wait_resolves_witness :
  let s' := http_done (env := sample_env) 0 (HttpOk queued_response)
              last_attempt_on_A1 in
  polls s' !! 0
  = Some {| poll_asset := saved_asset;
            poll_state := Settled (Resolved None) |}
  ∧ fired s' = fired last_attempt_on_A1 ++ [EvProcessed saved_asset]
  ∧ insertImageCalls s'
    = insertImageCalls last_attempt_on_A1
      ++ [image_source (env := sample_env) saved_asset].
Proof.
  intros s'.
  destruct (processed_fired_whenever_wait_resolves (env := sample_env)
              0 saved_asset 3 (HttpOk queued_response) last_attempt_on_A1
              eq_refl)
    as (_ & _ & H).
  apply (H "Image has not been processed yet."). reflexivity.
Defined.

(** The answer to the last attempt says queued: the promise resolves with
    [undefined] and the console stays empty. *)
Lemma exhausted_retry_is_swallowed_witness :
  let s' := http_done (env := sample_env) 0 (HttpOk queued_response)
              last_attempt_on_A1 in
  polls s' !! 0
  = Some {| poll_asset := saved_asset;
            poll_state := Settled (Resolved None) |}
  ∧ console s' = []
  ∧ fired s' = [EvOpen; EvSave saved_asset; EvProcessed saved_asset].
Proof.
  intros s'.
  destruct (exhausted_retry_is_swallowed (env := sample_env)
              0 saved_asset 3 (HttpOk queued_response)
              "Image has not been processed yet." last_attempt_on_A1
              eq_refl eq_refl)
    as (_ & _ & Hp & Hc & Hf).
  split; [exact Hp|]. split; [exact Hc | exact Hf].
Defined.

(** The endpoint answers queued four times: the wait is over after four
    requests. *)
Lemma wait_terminates_after_attempt_bound_witness :
  let s' := run_poll (env := sample_env) 0
              [HttpOk queued_response; HttpOk queued_response;
               HttpOk queued_response; HttpOk queued_response]
              saved_on_A1 in
  polls s' !! 0
  = Some {| poll_asset := saved_asset;
            poll_state := Settled (Resolved None) |}
  ∧ length (requests s') = 4
  ∧ http_done (env := sample_env) 0 (HttpOk success_response) s' = s'.
Proof.
  intros s'.
  destruct (wait_terminates_after_attempt_bound (env := sample_env)
              saved_asset
              [HttpOk queued_response; HttpOk queued_response;
               HttpOk queued_response; HttpOk queued_response]
              opened_on_A1)
    as (Hp & Hr & Hd & _).
  - repeat constructor; apply queued_not_ready.
  - reflexivity.
  - split; [exact Hp|]. split; [exact Hr | apply Hd].
Defined.

(** The dialog is closed while the poll of the saved asset waits for its
    first answer, or for its first delay: the next request is sent, and the
    success response settles the poll with no wrapper around. *)
Lemma close_does_not_cancel_poll_witness :
  let closed := fire (env := sample_env) EvClose saved_on_A1 in
  let s2 := http_done (env := sample_env) 0 (HttpOk success_response) closed in
  let d2 := delay_elapsed (env := sample_env) 0
              (fire (env := sample_env) EvClose delayed_on_A1) in
  _wrapper saved_on_A1 = Some 0
  ∧ _wrapper closed = None
  ∧ fired s2 = [EvOpen; EvSave saved_asset; EvClose; EvProcessed saved_asset]
  ∧ insertImageCalls s2 = [image_source (env := sample_env) saved_asset]
  ∧ _wrapper s2 = None
  ∧ length (requests d2) = 2.
Proof.
  intros closed s2 d2.
  destruct (close_does_not_cancel_poll (env := sample_env) saved_on_A1)
    as (_ & _ & Hw & _ & _ & Hs).
  destruct (Hs 0 saved_asset 0 success_response eq_refl success_ready)
    as (_ & Hf & Hi & Hw2 & _).
  destruct (close_does_not_cancel_poll (env := sample_env) delayed_on_A1)
    as (_ & _ & _ & _ & Hd & _).
  destruct (Hd 0 saved_asset 1 eq_refl) as (_ & Hr).
  split; [reflexivity|]. split; [exact Hw|]. split; [exact Hf|].
  split; [exact Hi|]. split; [exact Hw2|].
  subst d2. rewrite Hr. reflexivity.
Defined.

(** * Further properties of the command *)

(** ** [refresh] and the listener of the namespace *)

Section Refreshed.
Context {env : Environment}.

Lemma refresh_guard_dec sel :
  (∃ v, selects_ckbox_image sel v) ∨ ¬ (∃ v, selects_ckbox_image sel v).
Proof.
  destruct sel as [e|].
  - destruct ((is_element e "imageInline" || is_element e "imageBlock")
                && hasAttribute e "ckboxImageId") eqn:Hg.
    + left. by apply refresh_guard_spec.
    + right. intros H%refresh_guard_spec. congruence.
  - right. intros [v [e [[=] _]]].
Qed.

Lemma selects_ckbox_image_inj sel v1 v2 :
  selects_ckbox_image sel v1 → selects_ckbox_image sel v2 → v1 = v2.
Proof.
  intros [e1 [-> [_ H1]]] [e2 [[= <-] [_ H2]]]. congruence.
Qed.

(** The cached fields of a refreshed state say what the state is: the
    command is enabled exactly when an attributed image is selected, the
    cached id is the attribute of that image, and [value] is true exactly
    when there is a wrapper. *)
Lemma refreshed_cache s :
  (isEnabled (refresh s) = true ↔ ∃ v, selects_ckbox_image (selection s) v)
  ∧ (∀ v, _ckboxImageId (refresh s) = Some v
          ↔ selects_ckbox_image (selection s) v)
  ∧ (value (refresh s) = true ↔ _wrapper s ≠ None).
Proof.
  split; [|split].
  - destruct (refresh_guard_dec (selection s)) as [[v Hv]|Hn].
    + destruct (refresh_enabled s v Hv) as [-> _]. split; eauto.
    + destruct (refresh_disabled s Hn) as [-> _]. split; [done|].
      intros H. by destruct Hn.
  - intros v. destruct (refresh_guard_dec (selection s)) as [[v' Hv]|Hn].
    + destruct (refresh_enabled s v' Hv) as [_ ->]. split.
      * by intros [= <-].
      * intros Hv2. f_equal. by eapply selects_ckbox_image_inj.
    + destruct (refresh_disabled s Hn) as [_ ->]. split; [done|].
      intros H. destruct Hn. eauto.
  - rewrite refresh_value. unfold _getValue.
    destruct (_wrapper s); split; done.
Qed.

(** [refresh] can be called any number of times: a second call changes
    nothing, and a call changes no field but [value], [isEnabled] and the
    cached image id. *)
Theorem refresh_is_idempotent (s : State) :
  refresh (refresh s) = refresh s
  ∧ refresh s = set_enabled (isEnabled (refresh s)) (_ckboxImageId (refresh s))
                  (set_value (_getValue s) s).
Proof.
  split; [apply refresh_idempotent|].
  destruct s. unfold refresh. cbn.
  destruct selection0 as [e|]; [|reflexivity].
  destruct (_ && _); reflexivity.
Qed.

Lemma fire_cache ev s :
  let s' := fire ev s in
  (isEnabled s' = true ↔ ∃ v, selects_ckbox_image (selection s') v)
  ∧ (∀ v, _ckboxImageId s' = Some v ↔ selects_ckbox_image (selection s') v)
  ∧ (value s' = true ↔ _wrapper s' ≠ None).
Proof.
  intros s'. subst s'. unfold fire.
  set (t := listener ev _).
  destruct (refresh_frame t) as (_ & Hw & Hsel & _).
  rewrite Hw, Hsel. apply refreshed_cache.
Qed.


End Refreshed.

(** ** Opening, closing and inserting *)

Section Dialog.
Context {env : Environment}.

Lemma on_open_opens s :
  isEnabled s = true → _wrapper s = None →
  on_open s
  = set_dom (Some (nextElement s)) (body s ++ [nextElement s])
      (S (nextElement s))
      (mounted s ++ [ {| mount_wrapper := nextElement s;
                         assetId := _ckboxImageId s;
                         allowOverwrite := false;
                         mount_tokenUrl := tokenUrl |} ])
      (focusCalls s) (set_value true s).
Proof.
  intros He Hw. unfold on_open, _getValue. by rewrite He, Hw.
Qed.

(** What firing [ckboxImageEditor:open] does when the listener goes on. *)
Lemma fire_open_opens s :
  isEnabled s = true → _wrapper s = None →
  let s' := fire EvOpen s in
  _wrapper s' = Some (nextElement s)
  ∧ body s' = body s ++ [nextElement s]
  ∧ nextElement s' = S (nextElement s)
  ∧ mounted s'
    = mounted s ++ [ {| mount_wrapper := nextElement s;
                        assetId := _ckboxImageId s;
                        allowOverwrite := false;
                        mount_tokenUrl := tokenUrl |} ]
  ∧ value s' = true
  ∧ selection s' = selection s
  ∧ focusCalls s' = focusCalls s
  ∧ polls s' = polls s
  ∧ requests s' = requests s
  ∧ insertImageCalls s' = insertImageCalls s
  ∧ fired s' = fired s ++ [EvOpen].
Proof.
  intros He Hw s'. subst s'. unfold fire. cbn [listener].
  rewrite on_open_opens by done.
  set (t := set_dom _ _ _ _ _ _).
  rewrite refresh_value.
  destruct (refresh_frame t)
    as (_ & -> & -> & -> & -> & -> & -> & -> & _ & -> & _ & -> & ->).
  repeat split; reflexivity.
Qed.

(** Executing the command while an attributed image is selected and no
    dialog is open, right after a refresh: a new wrapper is appended to the
    page, the image editor is mounted on it for the id of the selected
    image, with the token URL of the configuration and overwriting
    disallowed, and [value] becomes true.  Nothing is focused, requested or
    inserted. *)
Theorem execute_mounts_the_editor_for_the_selected_image
    (s : State) (v : string) :
  _wrapper s = None →
  selects_ckbox_image (selection s) v →
  let s' := execute (refresh s) in
  _wrapper s' = Some (nextElement s)
  ∧ body s' = body s ++ [nextElement s]
  ∧ mounted s'
    = mounted s ++ [ {| mount_wrapper := nextElement s;
                        assetId := Some v;
                        allowOverwrite := false;
                        mount_tokenUrl := tokenUrl |} ]
  ∧ value s' = true
  ∧ isEnabled s' = true
  ∧ _ckboxImageId s' = Some v
  ∧ focusCalls s' = focusCalls s
  ∧ requests s' = requests s
  ∧ insertImageCalls s' = insertImageCalls s.
Proof.
  intros Hw Hsel s'.
  destruct (refresh_frame s)
    as (_ & Hw' & Hsel' & Hins & Hfoc & Hbody & Hnext & Hmnt & _ & Hreq & _).
  destruct (refresh_enabled s v Hsel) as [He Hid].
  destruct (fire_open_opens (refresh s) He)
    as (H1 & H2 & _ & H4 & H5 & H6 & H7 & _ & H9 & H10 & _).
  { by rewrite Hw'. }
  fold (execute (refresh s)) in *. fold s' in H1, H2, H4, H5, H6, H7, H9, H10.
  rewrite Hnext in H1, H2, H4. rewrite Hbody in H2.
  rewrite Hmnt, Hid in H4. rewrite Hfoc in H7.
  rewrite Hreq in H9. rewrite Hins in H10.
  assert (Hsel2 : selects_ckbox_image (selection s') v).
  { by rewrite H6, Hsel'. }
  destruct (fire_cache EvOpen (refresh s)) as (He2 & Hid2 & _).
  fold (execute (refresh s)) in He2, Hid2. fold s' in He2, Hid2.
  repeat split; try assumption.
  - apply He2. eauto.
  - by apply Hid2.
Qed.

Lemma on_close_page s :
  mounted (on_close s) = mounted s ∧ nextElement (on_close s) = nextElement s.
Proof. unfold on_close. by destruct (_wrapper s). Qed.

(** Opening the dialog and closing it again, from a state where the command
    is enabled and the page holds no wrapper: the page is as before, the
    wrapper is gone, [value] is false, the view was focused once and the
    editor was mounted once; the selection, the polls, the requests and the
    inserted images were not touched. *)
Theorem open_then_close_restores_the_page (s : State) :
  single_mount_point s →
  _wrapper s = None →
  isEnabled s = true →
  let s' := step OnClose (step Execute s) in
  _wrapper s' = None
  ∧ body s' = body s
  ∧ value s' = false
  ∧ focusCalls s' = S (focusCalls s)
  ∧ length (mounted s') = S (length (mounted s))
  ∧ selection s' = selection s
  ∧ polls s' = polls s
  ∧ requests s' = requests s
  ∧ insertImageCalls s' = insertImageCalls s
  ∧ fired s' = fired s ++ [EvOpen; EvClose].
Proof.
  intros Hb Hw He s'. cbn [step] in s'. unfold execute in s'.
  destruct (fire_open_opens s He Hw)
    as (Hw1 & Hb1 & _ & Hm1 & _ & Hsel1 & Hf1 & Hp1 & Hr1 & Hi1 & He1).
  set (s1 := fire EvOpen s) in *.
  set (t := set_fired (fired s1 ++ [EvClose]) s1).
  assert (Hs' : s' = refresh (on_close t)) by reflexivity.
  destruct (refresh_frame (on_close t))
    as (_ & Hw2 & Hsel2 & Hi2 & Hf2 & Hb2 & _ & Hm2 & _ & Hr2 & _ & He2 & Hp2).
  destruct (on_close_frame t)
    as (Hsel3 & Hi3 & _ & _ & _ & _ & Hr3 & _ & He3 & Hp3).
  destruct (on_close_page t) as (Hm3 & _).
  unfold single_mount_point in Hb. rewrite Hw in Hb.
  rewrite Hs'.
  split. { rewrite Hw2. apply on_close_wrapper. }
  split.
  { assert (Ht : single_mount_point t).
    { unfold single_mount_point. cbn. by rewrite Hw1, Hb1, Hb. }
    apply on_close_single_mount_point in Ht.
    unfold single_mount_point in Ht. rewrite on_close_wrapper in Ht.
    by rewrite Hb2, Ht, Hb. }
  split.
  { rewrite refresh_value. unfold _getValue. by rewrite on_close_wrapper. }
  split.
  { rewrite Hf2, on_close_focus. unfold _getValue. cbn. rewrite Hw1.
    by rewrite Hf1. }
  split. { rewrite Hm2, Hm3. cbn. rewrite Hm1, length_app. cbn. lia. }
  split. { by rewrite Hsel2, Hsel3. }
  split. { by rewrite Hp2, Hp3. }
  split. { by rewrite Hr2, Hr3. }
  split. { by rewrite Hi2, Hi3. }
  rewrite He2, He3. cbn. by rewrite He1, <- app_assoc.
Qed.

(** When the insert-image command leaves an image element selected, the
    processed event leaves that element selected with the id of the asset
    as its [ckboxImageId] and its other attributes as they were, and the
    command enabled for it: the inserted image can be edited again. *)
Theorem inserted_image_can_be_edited_again
    (asset : CKBoxRawAssetDefinition) (s : State) (e : ModelElement) :
  insertImage (image_source asset) (selection s) = Some e →
  name e = "imageInline" ∨ name e = "imageBlock" →
  let s' := fire (EvProcessed asset) s in
  selection s' = Some (setAttribute "ckboxImageId" (id (data asset)) e)
  ∧ selects_ckbox_image (selection s') (id (data asset))
  ∧ isEnabled s' = true
  ∧ _ckboxImageId s' = Some (id (data asset))
  ∧ (∀ e' key, selection s' = Some e' → key ≠ "ckboxImageId" →
       getAttribute e' key = getAttribute e key).
Proof.
  intros Hins Hname s'.
  destruct (fire_processed asset s) as (_ & _ & Hsel & _).
  fold s' in Hsel. rewrite Hins in Hsel. cbn in Hsel.
  assert (Hs : selects_ckbox_image (selection s') (id (data asset))).
  { rewrite Hsel. eexists. split; [reflexivity|]. split; [exact Hname|].
    cbn. apply lookup_insert_eq. }
  destruct (fire_cache (EvProcessed asset) s) as (He & Hid & _).
  fold s' in He, Hid.
  split; [exact Hsel|]. split; [exact Hs|].
  split; [apply He; eauto|]. split; [by apply Hid|].
  intros e' key He' Hkey. rewrite Hsel in He'. injection He' as <-.
  unfold getAttribute. cbn. by apply lookup_insert_ne.
Qed.

(** The placeholder of the source given to the insert-image command is the
    placeholder of the prepared attributes when that is a non-empty string;
    a missing or empty placeholder is left out, and the source never has
    the empty string as its placeholder.  The five other members are those
    of the prepared attributes. *)
Theorem image_source_leaves_out_an_empty_placeholder
    (asset : CKBoxRawAssetDefinition) :
  let attrs := prepareImageAssetAttributes asset in
  (src_placeholder (image_source asset) = None
   ↔ imagePlaceholder attrs = None ∨ imagePlaceholder attrs = Some "")
  ∧ src_placeholder (image_source asset) ≠ Some ""
  ∧ (∀ p, src_placeholder (image_source asset) = Some p →
          imagePlaceholder attrs = Some p)
  ∧ src (image_source asset) = imageFallbackUrl attrs
  ∧ src_sources (image_source asset) = imageSources attrs
  ∧ alt (image_source asset) = imageTextAlternative attrs
  ∧ src_width (image_source asset) = imageWidth attrs
  ∧ src_height (image_source asset) = imageHeight attrs.
Proof.
  intros attrs. unfold image_source. fold attrs. cbn.
  destruct (imagePlaceholder attrs) as [p|] eqn:Hp; cbn.
  - destruct (String.eqb_spec p "") as [->|Hne]; cbn.
    + repeat split; auto; try done.
    + repeat split; try done.
      * intros [H|H]; [done|]. by injection H.
      * intros H. by injection H.
  - repeat split; auto; done.
Qed.

End Dialog.

(** ** The polls of several saves *)

Section Polls.
Context {env : Environment}.

(** A failure of the transport is dealt with like a response that is not
    ready: the poll does with it what it does with such a response, retry
    or give up, and what the failure said is dropped. *)
Theorem transport_failure_is_handled_as_not_ready
    (i : nat) (err : string) (response : CKBoxRawAssetDataDefinition)
    (s : State) :
  not_ready (HttpOk response) →
  not_ready (HttpFailed err)
  ∧ http_done i (HttpFailed err) s = http_done i (HttpOk response) s.
Proof.
  intros [err' Hr]. split; [by exists err|].
  unfold http_done. case_poll s i; try reflexivity.
  rewrite Hr. cbn.
  destruct (maxAttempts <=? S attempt); reflexivity.
Qed.

Lemma http_done_polls i answer s :
  polls (http_done i answer s) = polls s
  ∨ ∃ asset attempt st,
      polls s !! i = Some {| poll_asset := asset;
                             poll_state := AwaitingResponse attempt |}
      ∧ polls (http_done i answer s)
        = <[i := {| poll_asset := asset; poll_state := st |}]> (polls s).
Proof.
  unfold http_done. case_poll s i; try by left.
  right. exists asset, attempt.
  destruct (retry attempt _) as [response|err|next];
    cbn [_waitForAssetProcessed_catch settle].
  - eexists. split; [reflexivity|]. by rewrite fire_polls.
  - eexists. split; [reflexivity|]. by rewrite fire_polls.
  - eexists. split; reflexivity.
Qed.

Lemma delay_elapsed_polls i s :
  polls (delay_elapsed i s) = polls s
  ∨ ∃ asset attempt,
      polls s !! i = Some {| poll_asset := asset;
                             poll_state := AwaitingDelay attempt |}
      ∧ polls (delay_elapsed i s)
        = <[i := {| poll_asset := asset;
                    poll_state := AwaitingResponse attempt |}]> (polls s).
Proof.
  unfold delay_elapsed. case_poll s i; try by left.
  right. exists asset, attempt. split; reflexivity.
Qed.

(** An answer to the request of one poll, or the end of its delay, leaves
    every other poll as it is. *)
Theorem polls_do_not_interfere (i j : nat) (s : State) :
  i ≠ j →
  (∀ answer, polls (http_done i answer s) !! j = polls s !! j)
  ∧ polls (delay_elapsed i s) !! j = polls s !! j.
Proof.
  intros Hij. split.
  - intros answer.
    destruct (http_done_polls i answer s)
      as [->|(asset & attempt & st & _ & ->)]; [reflexivity|].
    by apply list_lookup_insert_ne.
  - destruct (delay_elapsed_polls i s)
      as [->|(asset & attempt & _ & ->)]; [reflexivity|].
    by apply list_lookup_insert_ne.
Qed.



End Polls.

(** ** Whole runs *)

Section Runs.
Context {env : Environment}.

Lemma run_invariant (P : State → Prop) :
  (∀ inp s, P s → P (step inp s)) →
  ∀ inputs s, P s → P (run inputs s).
Proof.
  intros Hstep inputs. induction inputs as [|inp inputs IH]; intros s Hs; cbn.
  - exact Hs.
  - by apply IH, Hstep.
Qed.

(** The cases of an answer: nothing waits for it, it settles the promise
    with a value, or it is followed by the delay before the next attempt. *)
Lemma http_done_cases i answer s :
  http_done i answer s = s
  ∨ (∃ asset attempt v,
       polls s !! i = Some {| poll_asset := asset;
                              poll_state := AwaitingResponse attempt |}
       ∧ http_done i answer s = settle i asset (Resolved v) s)
  ∨ (∃ asset attempt,
       polls s !! i = Some {| poll_asset := asset;
                              poll_state := AwaitingResponse attempt |}
       ∧ S attempt < maxAttempts
       ∧ http_done i answer s
         = set_polls (<[i := {| poll_asset := asset;
                                poll_state := AwaitingDelay (S attempt) |}]>
                        (polls s)) s).
Proof.
  unfold http_done. case_poll s i; try by left.
  right. unfold retry.
  destruct (_getAssetStatusFromServer_resume answer) as [response|err];
    [|destruct (Nat.leb_spec maxAttempts (S attempt))];
    cbn [_waitForAssetProcessed_catch].
  - left. by exists asset, attempt, (Some response).
  - left. by exists asset, attempt, None.
  - right. by exists asset, attempt.
Qed.

Lemma delay_elapsed_cases i s :
  delay_elapsed i s = s
  ∨ (∃ asset attempt,
       polls s !! i = Some {| poll_asset := asset;
                              poll_state := AwaitingDelay attempt |}
       ∧ delay_elapsed i s
         = set_polls (<[i := {| poll_asset := asset;
                                poll_state := AwaitingResponse attempt |}]>
                        (polls s))
             (_getAssetStatusFromServer_send (data asset) s)).
Proof.
  unfold delay_elapsed. case_poll s i; try by left.
  right. by exists asset, attempt.
Qed.

Lemma refresh_page s : page (refresh s) = page s.
Proof.
  unfold page.
  by destruct (refresh_frame s) as (_ & -> & _ & _ & -> & -> & -> & -> & _).
Qed.

Lemma fire_page ev s :
  ev ≠ EvOpen → ev ≠ EvClose → page (fire ev s) = page s.
Proof.
  intros Ho Hc. unfold fire. rewrite refresh_page.
  by destruct ev.
Qed.

Lemma settle_page i asset v s : page (settle i asset (Resolved v) s) = page s.
Proof. unfold settle. by rewrite fire_page. Qed.

Lemma http_done_page i answer s : page (http_done i answer s) = page s.
Proof.
  destruct (http_done_cases i answer s)
    as [->|[(asset & attempt & v & _ & ->)|(asset & attempt & _ & _ & ->)]].
  - reflexivity.
  - apply settle_page.
  - reflexivity.
Qed.

Lemma delay_elapsed_page i s : page (delay_elapsed i s) = page s.
Proof.
  by destruct (delay_elapsed_cases i s) as [->|(asset & attempt & _ & ->)].
Qed.

Lemma mounts_ok_page s s' : page s' = page s → mounts_ok s → mounts_ok s'.
Proof.
  unfold page, mounts_ok, _getValue. intros [= -> _ -> -> ->]. done.
Qed.

Lemma fire_open_mounts_ok s : mounts_ok s → mounts_ok (fire EvOpen s).
Proof.
  intros Hs.
  destruct (negb (isEnabled s) || _getValue s) eqn:Hg.
  - revert Hs. apply mounts_ok_page. unfold fire. rewrite refresh_page.
    cbn [listener]. rewrite on_open_blocked; [reflexivity|]. cbn.
    apply orb_true_iff in Hg as [Hg%negb_true_iff|Hg]; [by right|left].
    unfold _getValue in Hg. by destruct (_wrapper s).
  - apply orb_false_iff in Hg as [He%negb_false_iff Hw].
    assert (Hw' : _wrapper s = None).
    { unfold _getValue in Hw. by destruct (_wrapper s). }
    destruct (fire_open_opens s He Hw')
      as (H1 & _ & H3 & H4 & _ & _ & H7 & _).
    destruct Hs as (Hm & Hn & Ho & Hf & _).
    unfold mounts_ok, _getValue. rewrite H1, H3, H4, H7.
    rewrite fmap_app, length_app, Hm. cbn.
    rewrite Nat.add_1_r, seq_S, Hn. cbn.
    split; [reflexivity|]. split; [reflexivity|]. split.
    { apply Forall_app. split; [exact Ho|]. by apply Forall_singleton. }
    split.
    { unfold _getValue in Hf. rewrite Hw' in Hf. lia. }
    by intros w [= <-].
Qed.

Lemma fire_close_mounts_ok s : mounts_ok s → mounts_ok (fire EvClose s).
Proof.
  intros (Hm & Hn & Ho & Hf & Hw).
  unfold fire. set (t := set_fired _ s). cbn [listener].
  apply (mounts_ok_page (on_close t)); [apply refresh_page|].
  destruct (on_close_page t) as (Hm' & Hn').
  unfold mounts_ok, _getValue.
  rewrite on_close_wrapper, on_close_focus, Hm', Hn'. cbn.
  split; [exact Hm|]. split; [exact Hn|]. split; [exact Ho|]. split.
  - unfold _getValue in *. cbn. destruct (_wrapper s); lia.
  - done.
Qed.

Lemma step_mounts_ok inp s : mounts_ok s → mounts_ok (step inp s).
Proof.
  intros Hs. destruct inp; cbn [step].
  - by apply fire_open_mounts_ok.
  - by apply fire_close_mounts_ok.
  - revert Hs. by apply mounts_ok_page, fire_page.
  - revert Hs. apply mounts_ok_page, refresh_page.
  - exact Hs.
  - revert Hs. apply mounts_ok_page, http_done_page.
  - revert Hs. apply mounts_ok_page, delay_elapsed_page.
Qed.

(** Whatever happens to the command from its construction on: every time
    the image editor was mounted it got a wrapper of its own, with
    overwriting disallowed and the token URL of the configuration, and the
    wrapper the command holds is the one of the last mount. *)
Theorem every_mount_has_its_own_wrapper
    (inputs : list Input) (sel : option ModelElement) :
  let s := run inputs (new_command sel) in
  NoDup (mount_wrapper <$> mounted s)
  ∧ Forall (λ m, allowOverwrite m = false ∧ mount_tokenUrl m = tokenUrl)
      (mounted s)
  ∧ ∀ w, _wrapper s = Some w → mount_wrapper <$> last (mounted s) = Some w.
Proof.
  intros s.
  assert (Hs : mounts_ok s).
  { apply (run_invariant mounts_ok); [apply step_mounts_ok|].
    repeat split. by constructor. done. }
  destruct Hs as (Hm & _ & Ho & _ & Hw).
  split; [rewrite Hm; apply NoDup_seq|]. split; [exact Ho|].
  intros w Hsw. specialize (Hw w Hsw).
  rewrite <- fmap_last, Hm, last_lookup, length_seq, <- Hw.
  apply lookup_seq. cbn. lia.
Qed.

(** Whatever happens to the command from its construction on, the editing
    view was focused once for every dialog that was mounted and is not open
    any more: the mounts are the focus calls, plus one while [value] is
    true. *)
Theorem view_is_focused_once_per_closed_dialog
    (inputs : list Input) (sel : option ModelElement) :
  let s := run inputs (new_command sel) in
  length (mounted s) = focusCalls s + (if value s then 1 else 0).
Proof.
  intros s.
  assert (Hs : mounts_ok s).
  { apply (run_invariant mounts_ok); [apply step_mounts_ok|].
    repeat split. by constructor. done. }
  assert (Hv : session_ok s).
  { apply run_session_ok. split; reflexivity. }
  destruct Hs as (_ & _ & _ & Hf & _). destruct Hv as [_ ->]. exact Hf.
Qed.

Lemma sum_list_with_insert {A} (f : A → nat) (l : list A) i x y :
  l !! i = Some x →
  sum_list_with f (<[i := y]> l) + f x = sum_list_with f l + f y.
Proof.
  revert i. induction l as [|a l IH]; intros [|i] Hi; simplify_eq/=.
  - lia.
  - specialize (IH i Hi). lia.
Qed.

Lemma poll_assets_insert (l : list PollTask) i asset st st' :
  l !! i = Some {| poll_asset := asset; poll_state := st |} →
  poll_asset <$> <[i := {| poll_asset := asset; poll_state := st' |}]> l
  = poll_asset <$> l.
Proof.
  intros Hi. rewrite list_fmap_insert. cbn.
  apply list_insert_id. by rewrite list_lookup_fmap, Hi.
Qed.

(** What firing an event does to the polls, the requests, the inserted
    images and the event log. *)
Lemma fire_effect ev s :
  let s' := fire ev s in
  fired s' = fired s ++ [ev]
  ∧ polls s'
    = match ev with
      | EvSave asset => polls s ++ [ {| poll_asset := asset;
                                        poll_state := AwaitingResponse 0 |} ]
      | _ => polls s
      end
  ∧ requests s'
    = match ev with
      | EvSave asset =>
          requests s ++ poll_requests (data asset) (nextAbortController s) 1
      | _ => requests s
      end
  ∧ insertImageCalls s'
    = match ev with
      | EvProcessed asset => insertImageCalls s ++ [image_source asset]
      | _ => insertImageCalls s
      end.
Proof.
  intros s'. subst s'. destruct ev as [| |asset|asset].
  - unfold fire. set (t := set_fired _ s).
    destruct (refresh_frame (listener EvOpen t))
      as (_ & _ & _ & -> & _ & _ & _ & _ & _ & -> & _ & -> & ->).
    cbn [listener]. unfold on_open. by destruct (_ || _).
  - by destruct (fire_close_frame s) as (-> & -> & _ & -> & -> & _).
  - by destruct (fire_save asset s) as (-> & -> & _ & -> & -> & _).
  - by destruct (fire_processed asset s) as (-> & -> & _ & -> & -> & _).
Qed.

Lemma settle_effect i asset v s :
  let s' := settle i asset (Resolved v) s in
  polls s' = <[i := {| poll_asset := asset;
                       poll_state := Settled (Resolved v) |}]> (polls s)
  ∧ fired s' = fired s ++ [EvProcessed asset]
  ∧ insertImageCalls s' = insertImageCalls s ++ [image_source asset]
  ∧ requests s' = requests s.
Proof.
  intros s'. subst s'.
  by destruct (settle_resolved i asset v s) as (-> & -> & -> & _ & -> & _).
Qed.

Lemma step_requests_ok inp s :
  polls_bounded s → requests_ok s → requests_ok (step inp s).
Proof.
  intros Hb (Hfor & Hlo & Hhi).
  assert (Hfire : ∀ ev, requests_ok (fire ev s)).
  { intros ev. unfold requests_ok.
    destruct (fire_effect ev s) as (_ & -> & -> & _).
    destruct ev as [| |asset|asset]; try done.
    rewrite fmap_app, !length_app, sum_list_with_app. cbn.
    split; [|lia].
    apply Forall_app. split.
    - eapply Forall_impl; [exact Hfor|]. cbn.
      intros r (a & Ha & Hr). exists a. split; [|exact Hr].
      apply elem_of_app. by left.
    - apply Forall_singleton. exists asset. split; [|done].
      apply elem_of_app. right. by apply list_elem_of_singleton. }
  destruct inp as [| |asset| |sel|i answer|i]; cbn [step]; try apply Hfire.
  - unfold requests_ok.
    by destruct (refresh_frame s)
      as (_ & _ & _ & _ & _ & _ & _ & _ & _ & -> & _ & _ & ->).
  - done.
  - destruct (http_done_cases i answer s)
      as [->|[(asset & attempt & v & Hi & ->)|(asset & attempt & Hi & Hlt & ->)]].
    + done.
    + unfold requests_ok.
      destruct (settle_effect i asset v s) as (-> & _ & _ & ->).
      rewrite (poll_assets_insert _ _ _ _ _ Hi), length_insert.
      split; [exact Hfor|]. split; [exact Hlo|].
      pose proof (sum_list_with_insert poll_cost (polls s) i _
                    {| poll_asset := asset;
                       poll_state := Settled (Resolved v) |} Hi) as Hsum.
      unfold polls_bounded in Hb. rewrite Forall_lookup in Hb.
      specialize (Hb i _ Hi). unfold within_bound in Hb.
      unfold poll_cost at 2 4 in Hsum. cbn in Hb, Hsum. lia.
    + unfold requests_ok. cbn.
      rewrite (poll_assets_insert _ _ _ _ _ Hi), length_insert.
      split; [exact Hfor|]. split; [exact Hlo|].
      pose proof (sum_list_with_insert poll_cost (polls s) i _
                    {| poll_asset := asset;
                       poll_state := AwaitingDelay (S attempt) |} Hi)
        as Hsum.
      unfold poll_cost at 2 4 in Hsum. cbn in Hsum. lia.
  - destruct (delay_elapsed_cases i s) as [->|(asset & attempt & Hi & ->)].
    + done.
    + unfold requests_ok. cbn.
      rewrite (poll_assets_insert _ _ _ _ _ Hi), length_insert, length_app.
      cbn. split; [|split; [lia|]].
      * apply Forall_app. split; [exact Hfor|].
        apply Forall_singleton. exists asset. split; [|done].
        apply list_elem_of_fmap. eexists. split; [|by eapply list_elem_of_lookup_2].
        reflexivity.
      * pose proof (sum_list_with_insert poll_cost (polls s) i _
                      {| poll_asset := asset;
                         poll_state := AwaitingResponse attempt |} Hi)
          as Hsum.
        unfold poll_cost at 2 4 in Hsum. cbn in Hsum. lia.
Qed.

Lemma sum_poll_cost_bound (l : list PollTask) :
  Forall within_bound l →
  sum_list_with poll_cost l ≤ length l * attempt_bound.
Proof.
  induction 1 as [|task l Ht _ IH]; cbn; [lia|].
  assert (poll_cost task ≤ attempt_bound); [|lia].
  unfold within_bound in Ht. unfold poll_cost.
  destruct (poll_state task); lia.
Qed.

Lemma reachable_requests_ok inputs sel :
  polls_bounded (run inputs (new_command sel))
  ∧ requests_ok (run inputs (new_command sel)).
Proof.
  apply (run_invariant (λ s, polls_bounded s ∧ requests_ok s)).
  - intros inp s [Hb Hr]. split.
    + by apply step_polls_bounded.
    + by apply step_requests_ok.
  - split; [constructor|]. split; [constructor|]. cbn. lia.
Qed.

(** Whatever happens to the command from its construction on, every request
    that was sent asks the service origin for the asset of one of the polls,
    that is of a save event, with the token as its authorization: nothing
    else is ever requested. *)
Theorem requests_are_for_saved_assets
    (inputs : list Input) (sel : option ModelElement) :
  let s := run inputs (new_command sel) in
  Forall (λ r, ∃ asset, asset ∈ poll_asset <$> polls s ∧ request_for asset r)
    (requests s).
Proof.
  intros s. by destruct (reachable_requests_ok inputs sel) as (_ & H & _).
Qed.

(** Whatever happens to the command from its construction on, and however
    the answers, the delays and the other events are interleaved: every
    save event sent at least one request, and all the polls together sent
    no more requests than as many as [retry] makes attempts, each. *)
Theorem requests_stay_within_the_attempt_bound
    (inputs : list Input) (sel : option ModelElement) :
  let s := run inputs (new_command sel) in
  length (polls s) ≤ length (requests s)
  ∧ length (requests s) ≤ length (polls s) * attempt_bound.
Proof.
  intros s.
  destruct (reachable_requests_ok inputs sel) as (Hb & _ & Hlo & Hhi).
  fold s in Hb, Hlo, Hhi. split; [exact Hlo|].
  etrans; [exact Hhi|]. by apply sum_poll_cost_bound.
Qed.

Lemma count_snoc {A} (f : A → bool) (l : list A) (x : A) :
  length (filter f (l ++ [x]))
  = length (filter f l) + (if f x then 1 else 0).
Proof.
  rewrite filter_app, length_app, filter_cons, filter_nil. f_equal.
  destruct (decide (f x)) as [H|H]; destruct (f x); done.
Qed.

Lemma settled_polls_insert s i asset st st' :
  polls s !! i = Some {| poll_asset := asset; poll_state := st |} →
  sum_list_with (λ task, if is_settled task then 1 else 0)
    (<[i := {| poll_asset := asset; poll_state := st' |}]> (polls s))
  + (if is_settled {| poll_asset := asset; poll_state := st |} then 1 else 0)
  = settled_polls s
    + (if is_settled {| poll_asset := asset; poll_state := st' |}
       then 1 else 0).
Proof.
  intros Hi. unfold settled_polls.
  apply (sum_list_with_insert (λ task, if is_settled task then 1 else 0)
           (polls s) i _ _ Hi).
Qed.

Lemma step_inserts_ok inp s : inserts_ok s → inserts_ok (step inp s).
Proof.
  intros (Hins & Hproc & Hsave & Hres & Hsrc).
  unfold settled_polls in Hins, Hproc.
  assert (Hfire : ∀ ev, is_processed ev = false → inserts_ok (fire ev s)).
  { intros ev Hev. unfold inserts_ok, settled_polls.
    destruct (fire_effect ev s) as (-> & -> & _ & ->).
    rewrite !count_snoc.
    destruct ev as [| |asset|asset]; try discriminate Hev; cbn.
    - rewrite !Nat.add_0_r. done.
    - rewrite !Nat.add_0_r. done.
    - rewrite fmap_app, sum_list_with_app, length_app. cbn.
      split; [lia|]. split; [lia|]. split; [lia|]. split.
      + apply Forall_app. split; [exact Hres|].
        apply Forall_singleton. cbn. discriminate.
      + eapply Forall_impl; [exact Hsrc|]. cbn.
        intros source (a & Ha & ->). exists a. split; [|done].
        apply elem_of_app. by left. }
  destruct inp as [| |asset| |sel|i answer|i]; cbn [step];
    try (by apply Hfire).
  - unfold inserts_ok, settled_polls.
    by destruct (refresh_frame s)
      as (_ & _ & _ & -> & _ & _ & _ & _ & _ & _ & _ & -> & ->).
  - done.
  - destruct (http_done_cases i answer s)
      as [->|[(asset & attempt & v & Hi & ->)|(asset & attempt & Hi & Hlt & ->)]].
    + done.
    + unfold inserts_ok, settled_polls.
      destruct (settle_effect i asset v s) as (-> & -> & -> & _).
      pose proof (settled_polls_insert s i asset _
                    (Settled (Resolved v)) Hi) as Hsum.
      unfold settled_polls in Hsum. cbn in Hsum.
      rewrite (poll_assets_insert _ _ _ _ _ Hi), length_insert.
      rewrite !count_snoc, length_app. cbn.
      split; [lia|]. split; [lia|]. split; [lia|]. split.
      * apply Forall_insert; [exact Hres|]. cbn. intros r [= <-]. eauto.
      * apply Forall_app. split; [exact Hsrc|].
        apply Forall_singleton. exists asset. split; [|done].
        apply list_elem_of_fmap. eexists.
        split; [|by eapply list_elem_of_lookup_2]. reflexivity.
    + unfold inserts_ok, settled_polls. cbn.
      pose proof (settled_polls_insert s i asset _
                    (AwaitingDelay (S attempt)) Hi) as Hsum.
      unfold settled_polls in Hsum. cbn in Hsum.
      rewrite (poll_assets_insert _ _ _ _ _ Hi), length_insert.
      split; [lia|]. split; [lia|]. split; [exact Hsave|]. split; [|done].
      apply Forall_insert; [exact Hres|]. cbn. discriminate.
  - destruct (delay_elapsed_cases i s) as [->|(asset & attempt & Hi & ->)].
    + done.
    + unfold inserts_ok, settled_polls. cbn.
      pose proof (settled_polls_insert s i asset _
                    (AwaitingResponse attempt) Hi) as Hsum.
      unfold settled_polls in Hsum. cbn in Hsum.
      rewrite (poll_assets_insert _ _ _ _ _ Hi), length_insert.
      split; [lia|]. split; [lia|]. split; [exact Hsave|]. split; [|done].
      apply Forall_insert; [exact Hres|]. cbn. discriminate.
Qed.

(** Whatever happens to the command from its construction on: one poll was
    started per save event; one processed event was fired and one image was
    inserted per poll that is settled, so never more images than save
    events; none of the promises was rejected; and every inserted image was
    built from the asset of a save event. *)
Theorem one_image_is_inserted_per_settled_save
    (inputs : list Input) (sel : option ModelElement) :
  let s := run inputs (new_command sel) in
  length (filter is_save (fired s)) = length (polls s)
  ∧ length (filter is_processed (fired s)) = settled_polls s
  ∧ length (insertImageCalls s) = settled_polls s
  ∧ length (insertImageCalls s) ≤ length (filter is_save (fired s))
  ∧ Forall (λ task, ∀ r, poll_state task = Settled r → ∃ v, r = Resolved v)
      (polls s)
  ∧ Forall (λ source, ∃ asset, asset ∈ poll_asset <$> polls s
                               ∧ source = image_source asset)
      (insertImageCalls s).
Proof.
  intros s.
  assert (Hs : inserts_ok s).
  { apply (run_invariant inserts_ok); [apply step_inserts_ok|].
    repeat split; constructor. }
  destruct Hs as (Hins & Hproc & Hsave & Hres & Hsrc).
  split; [exact Hsave|]. split; [exact Hproc|]. split; [exact Hins|].
  split; [|split; [exact Hres | exact Hsrc]].
  rewrite Hins, Hsave. unfold settled_polls.
  clear. induction (polls s) as [|task l IH]; cbn; [lia|].
  destruct (is_settled task); lia.
Qed.

End Runs.

(** ** The further properties on the sample session *)

(** [image_A1] is selected in a new command: after a refresh, [execute]
    mounts the editor on wrapper 0 for the id ["A1"]. *)
Lemma execute_mounts_the_editor_for_the_selected_image_witness :
  let s' := execute (env := sample_env)
              (refresh (new_command (Some image_A1))) in
  _wrapper s' = Some 0
  ∧ body s' = [0]
  ∧ mounted s' = [ {| mount_wrapper := 0;
                      assetId := Some "A1";
                      allowOverwrite := false;
                      mount_tokenUrl := "https://example.com/token" |} ]
  ∧ value s' = true.
Proof.
  intros s'.
  destruct (execute_mounts_the_editor_for_the_selected_image
              (env := sample_env) (new_command (Some image_A1)) "A1")
    as (Hw & Hb & Hm & Hv & _).
  - reflexivity.
  - exists image_A1. split; [reflexivity|]. split; [by right | reflexivity].
  - split; [exact Hw|]. split; [exact Hb|]. split; [exact Hm | exact Hv].
Defined.

(** The dialog is opened on [image_A1] and closed again: the page is empty
    as before, after one focus call. *)
Lemma open_then_close_restores_the_page_witness :
  let s := refresh (new_command (Some image_A1)) in
  let s' := step (env := sample_env) OnClose
              (step (env := sample_env) Execute s) in
  body s' = [] ∧ _wrapper s' = None ∧ focusCalls s' = 1.
Proof.
  intros s s'.
  destruct (open_then_close_restores_the_page (env := sample_env) s)
    as (Hw & Hb & _ & Hf & _); try reflexivity.
  split; [exact Hb|]. split; [exact Hw | exact Hf].
Defined.

(** The sample insert-image command leaves an [imageBlock] selected: after
    the processed event of the saved asset the command is enabled for the
    id ["A2"]. *)
Lemma inserted_image_can_be_edited_again_witness :
  let s' := fire (env := sample_env) (EvProcessed saved_asset) opened_on_A1 in
  isEnabled s' = true ∧ _ckboxImageId s' = Some "A2".
Proof.
  intros s'.
  destruct (inserted_image_can_be_edited_again (env := sample_env)
              saved_asset opened_on_A1
              {| name := "imageBlock";
                 attributes :=
                   <["src" := "https://cdn.example.com/A2.webp"]>
                     (<["alt" := "a cat"]> ∅) |})
    as (_ & _ & He & Hi & _).
  - reflexivity.
  - by right.
  - split; [exact He | exact Hi].
Defined.

(** The saved asset has no placeholder: the source has none. *)
Lemma image_source_leaves_out_an_empty_placeholder_witness :
  src_placeholder (image_source (env := sample_env) saved_asset) = None.
Proof.
  apply (proj1 (image_source_leaves_out_an_empty_placeholder
                  (env := sample_env) saved_asset)).
  left. reflexivity.
Defined.

(** A failure of the transport on the first attempt leaves the poll of the
    saved asset waiting for its delay, as a queued response does. *)
Lemma transport_failure_is_handled_as_not_ready_witness :
  http_done (env := sample_env) 0 (HttpFailed "Network Error") saved_on_A1
  = delayed_on_A1.
Proof.
  apply (transport_failure_is_handled_as_not_ready (env := sample_env)
           0 "Network Error" queued_response saved_on_A1).
  apply queued_not_ready.
Defined.

(** Two images were saved: the success response for the first poll leaves
    the second one waiting for its first answer. *)
Lemma polls_do_not_interfere_witness :
  polls (http_done (env := sample_env) 0 (HttpOk success_response)
           saved_twice_on_A1) !! 1
  = Some {| poll_asset := {| data := success_response |};
            poll_state := AwaitingResponse 0 |}.
Proof.
  rewrite (proj1 (polls_do_not_interfere (env := sample_env) 0 1
                    saved_twice_on_A1 ltac:(discriminate))).
  reflexivity.
Defined.


(** While the dialog of the sample session is open, the wrapper the command
    holds is the one of the last mount. *)
Lemma every_mount_has_its_own_wrapper_witness :
  let s := run (env := sample_env) [Refresh; Execute]
             (new_command (Some image_A1)) in
  mount_wrapper <$> last (mounted s) = Some 0.
Proof.
  intros s.
  destruct (every_mount_has_its_own_wrapper (env := sample_env)
              [Refresh; Execute] (Some image_A1)) as (_ & _ & H).
  by apply H.
Defined.

(** In the sample session one image is inserted, for one save event, and the
    promise of the poll is resolved. *)
Lemma one_image_is_inserted_per_settled_save_witness :
  let s := run (env := sample_env) sample_session
             (new_command (Some image_A1)) in
  length (insertImageCalls s) = 1
  ∧ ∃ v, Resolved (Some success_response) = Resolved v.
Proof.
  intros s.
  destruct (one_image_is_inserted_per_settled_save (env := sample_env)
              sample_session (Some image_A1))
    as (_ & _ & Hins & _ & Hres & _).
  subst s. split.
  - rewrite Hins. reflexivity.
  - rewrite Forall_lookup in Hres.
    apply (Hres 0 {| poll_asset := saved_asset;
                     poll_state :=
                       Settled (Resolved (Some success_response)) |}
             eq_refl).
    reflexivity.
Defined.
